(** * pydaikin: energy-consumption history of the base appliance

    A shallow embedding of the energy-consumption tracking code of
    [pydaikin/daikin_base.py] (class [Appliance]): the parsing of the raw
    counters, the recorder [_register_energy_consumption_history], the
    integrator [delta_energy_consumption] and the derived power accessors.

    Conventions of the embedding.
    - A [datetime] is an integer number of microseconds, a [timedelta] as well.
    - The numbers the code computes with are Python floats (the result of
      [int / 1000] and [int / 10]) and the integer [0]; every finite float
      is a rational, and they are read here as rationals kept in lowest
      terms.  The operations [fadd], [fsub] and [fmul] compute without
      rounding error; what the integrator adds up is stated a second time
      over [float_add] and [float_sub], which round every result with a
      rounding [rnd], [round64] being the rounding of binary64.
    - [self.values] is a finite map from field names to raw strings;
      [self._energy_consumption_history] is a [defaultdict(list)], a finite
      map from mode keys to lists whose lookup of a missing key inserts the
      empty list.
    - [datetime.utcnow()] reads a clock the program does not control: the
      clock is a sequence of readings [clk] and the state counts the readings
      taken so far.
    - An exception leaves the mutations made before it in place.
    - The state keeps the messages logged at error level; the resources
      fetched from the device are inputs of [update_status]. *)

From Stdlib Require Import ZArith QArith String Ascii List Lia.
From stdpp Require Import gmap strings list fin_maps sorting pretty.

Open Scope Z_scope.

(** ** Exceptions and results *)

Inductive exn : Type :=
| AttributeError
| TypeError
| IndexError
| ValueError.

Inductive result (A : Type) : Type :=
| Ok (a : A)
| Raise (e : exn).

Arguments Ok {A} a.
Arguments Raise {A} e.

Definition result_bind {A B : Type} (r : result A) (k : A → result B) : result B :=
  match r with
  | Ok a => k a
  | Raise e => Raise e
  end.

(** ** Module constants *)

Definition microseconds_per_minute : Z := 60 * 1000000.

Definition timedelta_minutes (m : Z) : Z := m * microseconds_per_minute.

Definition timedelta_hours (h : Z) : Z := h * 60 * microseconds_per_minute.

Definition POWER_CONSUMPTION_MAX_HISTORY : Z := timedelta_hours 3.

Definition ATTR_TOTAL : string := "total".
Definition ATTR_COOL : string := "cool".
Definition ATTR_HEAT : string := "heat".

(** ** Python numbers *)

(** [a / b] on two integers (true division), [b] being a positive literal. *)
Definition int_truediv (a : Z) (b : positive) : Q := Qred (a # b).

(** [a / b] on two [timedelta]s. *)
Definition timedelta_truediv (a b : Z) : Q := Qred (inject_Z a / inject_Z b).

(** [x + y], [x - y] and [x * y] without rounding error; the operations that
    round are [float_add] and [float_sub] below. *)
Definition fadd (x y : Q) : Q := Qred (x + y).
Definition fsub (x y : Q) : Q := Qred (x - y).
Definition fmul (x y : Q) : Q := Qred (x * y).

(** [x > y], [x >= y] and [x == y]. *)
Definition fgt (x y : Q) : bool := negb (Qle_bool x y).
Definition fge (x y : Q) : bool := Qle_bool y x.
Definition feq (x y : Q) : bool := Qeq_bool x y.

(** [sum(l)] on a list of integers. *)
Definition py_sum (l : list Z) : Z := fold_left Z.add l 0.

(** ** Python strings: [str.split('/')] and [int(str)] *)

Fixpoint split_slash (s : string) : list string :=
  match s with
  | EmptyString => [EmptyString]
  | String c s' =>
      if Ascii.eqb c "/" then EmptyString :: split_slash s'
      else match split_slash s' with
           | [] => [String c EmptyString]
           | w :: ws => String c w :: ws
           end
  end.

Definition is_space (c : ascii) : bool :=
  let n := nat_of_ascii c in
  ((9 <=? n)%nat && (n <=? 13)%nat) || (n =? 32)%nat.

Definition is_digit (c : ascii) : bool :=
  let n := nat_of_ascii c in
  (48 <=? n)%nat && (n <=? 57)%nat.

Definition digit_value (c : ascii) : Z := Z.of_nat (nat_of_ascii c) - 48.

Fixpoint lstrip (s : string) : string :=
  match s with
  | String c s' => if is_space c then lstrip s' else s
  | EmptyString => s
  end.

Fixpoint all_space (s : string) : bool :=
  match s with
  | String c s' => is_space c && all_space s'
  | EmptyString => true
  end.

(** The digits of a decimal literal: single underscores may separate digits,
    white space may follow the last digit.  [prev] tells whether the previous
    character was a digit. *)
Fixpoint int_digits (s : string) (acc : Z) (prev : bool) : option Z :=
  match s with
  | EmptyString => if prev then Some acc else None
  | String c s' =>
      if is_digit c then int_digits s' (10 * acc + digit_value c) true
      else if Ascii.eqb c "_" then
        if prev then int_digits s' acc false else None
      else if is_space c then
        if prev && all_space s' then Some acc else None
      else None
  end.

(** [int(s)]: [None] stands for [ValueError].  Strings are sequences of
    bytes; decimal digits outside ASCII are not modelled. *)
Definition py_int (s : string) : option Z :=
  match lstrip s with
  | String "-" r => Z.opp <$> int_digits r 0 false
  | String "+" r => int_digits r 0 false
  | r => int_digits r 0 false
  end.

(** [[int(x) for x in l]]: [None] stands for [ValueError]. *)
Fixpoint ints (l : list string) : option (list Z) :=
  match l with
  | [] => Some []
  | x :: l' =>
      match py_int x with
      | None => None
      | Some n =>
          match ints l' with
          | None => None
          | Some ns => Some (n :: ns)
          end
      end
  end.

(** ** Counter extraction, over [self.values] *)

Section Extractor.

Variable values : gmap string string.

(** [_energy_consumption]: a missing field has no [split] (the
    [AttributeError] is not caught); a field that does not parse gives
    [None]. *)
Definition _energy_consumption (dimension : string) : result (option (list Z)) :=
  match values !! dimension with
  | None => Raise AttributeError
  | Some raw =>
      match ints (split_slash raw) with
      | None => Ok None
      | Some l => Ok (Some l)
      end
  end.

(** [x[-1]] and [x[-2]] for [x] the value of [_energy_consumption]. *)
Definition subscript_last (x : option (list Z)) : result Z :=
  match x with
  | None => Raise TypeError
  | Some l =>
      match last l with
      | Some n => Ok n
      | None => Raise IndexError
      end
  end.

Definition subscript_before_last (x : option (list Z)) : result Z :=
  match x with
  | None => Raise TypeError
  | Some l =>
      match rev l with
      | _ :: n :: _ => Ok n
      | _ => Raise IndexError
      end
  end.

(** [sum(x)] for [x] the value of [_energy_consumption]. *)
Definition sum_of (x : option (list Z)) : result Z :=
  match x with
  | None => Raise TypeError
  | Some l => Ok (py_sum l)
  end.

Definition today_energy_consumption (mode : string) : result Q :=
  if String.eqb mode ATTR_TOTAL then
    result_bind (_energy_consumption "datas") (λ x,
    result_bind (subscript_last x) (λ n, Ok (int_truediv n 1000)))
  else if String.eqb mode ATTR_COOL then
    result_bind (_energy_consumption "curr_day_cool") (λ x,
    result_bind (sum_of x) (λ n, Ok (int_truediv n 10)))
  else if String.eqb mode ATTR_HEAT then
    result_bind (_energy_consumption "curr_day_heat") (λ x,
    result_bind (sum_of x) (λ n, Ok (int_truediv n 10)))
  else Raise ValueError.

Definition yesterday_energy_consumption (mode : string) : result Q :=
  if String.eqb mode ATTR_TOTAL then
    result_bind (_energy_consumption "datas") (λ x,
    result_bind (subscript_before_last x) (λ n, Ok (int_truediv n 1000)))
  else if String.eqb mode ATTR_COOL then
    result_bind (_energy_consumption "prev_1day_cool") (λ x,
    result_bind (sum_of x) (λ n, Ok (int_truediv n 10)))
  else if String.eqb mode ATTR_HEAT then
    result_bind (_energy_consumption "prev_1day_heat") (λ x,
    result_bind (sum_of x) (λ n, Ok (int_truediv n 10)))
  else Raise ValueError.

(** [values.get(key, None) or '0'] *)
Definition get_or_zero (key : string) : string :=
  match values !! key with
  | None => "0"
  | Some EmptyString => "0"
  | Some s => s
  end.

Definition support_energy_consumption : result bool :=
  match ints (split_slash (get_or_zero "previous_year" +:+ "/" +:+ get_or_zero "this_year")) with
  | None => Raise ValueError
  | Some l => Ok (0 <? py_sum l)
  end.

End Extractor.

(** ** The appliance state and its operations *)

(** One history entry: [(timestamp, today, yesterday)]. *)
Definition snapshot : Type := Z * Q * Q.

Definition timestamp (s : snapshot) : Z := s.1.1.
Definition today (s : snapshot) : Q := s.1.2.
Definition yesterday (s : snapshot) : Q := s.2.

Record World : Type := mkWorld {
  values : gmap string string;
  _energy_consumption_history : gmap string (list snapshot);
  ticks : nat;
  log : list string
}.

Definition set_values (v : gmap string string) (w : World) : World :=
  mkWorld v (_energy_consumption_history w) (ticks w) (log w).

Definition set_history (h : gmap string (list snapshot)) (w : World) : World :=
  mkWorld (values w) h (ticks w) (log w).

Definition set_ticks (n : nat) (w : World) : World :=
  mkWorld (values w) (_energy_consumption_history w) n (log w).

Definition set_log (l : list string) (w : World) : World :=
  mkWorld (values w) (_energy_consumption_history w) (ticks w) l.

(** [Appliance.__init__]: no value, an empty history map. *)
Definition init_world : World := mkWorld ∅ ∅ 0 [].

(** A computation on the appliance: a result or an exception, and the state
    it leaves. *)
Definition M (A : Type) : Type := World → result A * World.

Definition ret {A : Type} (a : A) : M A := λ w, (Ok a, w).

Definition bind {A B : Type} (c : M A) (k : A → M B) : M B :=
  λ w, match c w with
       | (Ok a, w') => k a w'
       | (Raise e, w') => (Raise e, w')
       end.

Declare Scope appliance_scope.
Delimit Scope appliance_scope with appl.
Notation "'do' x <- c ; k" := (bind c (λ x, k))
  (at level 10, x name, c at level 100, k at level 200) : appliance_scope.
Notation "c ;; k" := (bind c (λ _, k))
  (at level 100, k at level 200, right associativity) : appliance_scope.
Open Scope appliance_scope.

Definition get_world : M World := λ w, (Ok w, w).

Definition modify_world (f : World → World) : M unit := λ w, (Ok tt, f w).

(** A pure computation over [self.values]. *)
Definition on_values {A : Type} (f : gmap string string → result A) : M A :=
  λ w, (f (values w), w).

(** [self._energy_consumption_history[mode]] on the [defaultdict]: a missing
    key is inserted with the empty list. *)
Definition history_getitem (mode : string) : M (list snapshot) :=
  λ w, match _energy_consumption_history w !! mode with
       | Some l => (Ok l, w)
       | None => (Ok [], set_history (<[mode := []]> (_energy_consumption_history w)) w)
       end.

(** [self._energy_consumption_history[mode] = l] *)
Definition history_setitem (mode : string) (l : list snapshot) : M unit :=
  modify_world (λ w, set_history (<[mode := l]> (_energy_consumption_history w)) w).

(** [_LOGGER.error(msg)] *)
Definition logger_error (msg : string) : M unit :=
  modify_world (λ w, set_log (log w ++ [msg]) w).

(** [min(l, default=d)] on a list of indices. *)
Definition py_min_default (l : list nat) (d : nat) : nat :=
  match l with
  | [] => d
  | i :: l' => fold_left Nat.min l' i
  end.

(** The state [old_state] the recorder compares with: the newest entry, or
    [(None, None, None)]. *)
Definition old_state_of (h : list snapshot) : option Z * option Q * option Q :=
  match h with
  | s :: _ => (Some (timestamp s), Some (today s), Some (yesterday s))
  | [] => (None, None, None)
  end.

(** The test guarding [continue]: both counters are those of [old_state]. *)
Definition state_unchanged (new_state : snapshot) (old_state : option Z * option Q * option Q) : bool :=
  match old_state.1.2 with
  | Some t1 =>
      if feq (today new_state) t1 then
        match old_state.2 with
        | Some y1 => feq (yesterday new_state) y1
        | None => false
        end
      else false
  | None => false
  end.

Section Appliance.

(** The readings of [datetime.utcnow()], in the order they are taken. *)
Variable clk : nat → Z.

Definition utcnow : M Z :=
  λ w, (Ok (clk (ticks w)), set_ticks (S (ticks w)) w).

(** The generator of the pruning step,
    [(i for i, (dt, _, _) in enumerate(h) if dt < utcnow() - MAX)],
    consumed to its end by [min]: one clock reading per entry. *)
Fixpoint stale_indices (i : nat) (h : list snapshot) : M (list nat) :=
  match h with
  | [] => ret []
  | s :: h' =>
      do now <- utcnow;
      do rest <- stale_indices (S i) h';
      ret (if timestamp s <? now - POWER_CONSUMPTION_MAX_HISTORY then i :: rest else rest)
  end.

(** The pruning step of the loop body ("we can remove very old states
    (except the latest one)"): [idx] is the least stale index plus one, the
    length plus one when no entry is stale. *)
Definition prune_history (mode : string) : M unit :=
  do h <- history_getitem mode;
  do stale <- stale_indices 0 h;
  let idx := (py_min_default stale (length h) + 1)%nat in
  history_setitem mode (take idx h).

(** The body of the recorder's loop for one mode; [ret tt] in the first
    branch is the [continue]. *)
Definition register_mode (mode : string) : M unit :=
  do now <- utcnow;
  do t <- on_values (λ v, today_energy_consumption v mode);
  do y <- on_values (λ v, yesterday_energy_consumption v mode);
  let new_state : snapshot := (now, t, y) in
  do h <- history_getitem mode;
  let old_state := old_state_of h in
  if state_unchanged new_state old_state then ret tt
  else
    history_setitem mode (new_state :: h);;
    prune_history mode.

Fixpoint for_modes (modes : list string) : M unit :=
  match modes with
  | [] => ret tt
  | mode :: modes' => register_mode mode;; for_modes modes'
  end.

Definition _register_energy_consumption_history : M unit :=
  do supported <- on_values support_energy_consumption;
  if negb supported then ret tt
  else for_modes [ATTR_TOTAL; ATTR_COOL; ATTR_HEAT].

(** [update_status], given the mappings the resources returned: each one
    updates [self.values], then the history is recorded. *)
Fixpoint update_values (fetched : list (gmap string string)) : M unit :=
  match fetched with
  | [] => ret tt
  | r :: fetched' =>
      modify_world (λ w, set_values (r ∪ values w) w);;
      update_values fetched'
  end.

Definition update_status (fetched : list (gmap string string)) : M unit :=
  update_values fetched;;
  _register_energy_consumption_history.

(** The loop of [delta_energy_consumption] over
    [zip(history, history[1:])], with the energy accumulated so far. *)
Fixpoint delta_loop (dt : Z) (early_break : bool)
    (pairs : list (snapshot * snapshot)) (energy : Q) : M Q :=
  match pairs with
  | [] => ret energy
  | ((dt2, st2, sy2), (dt1, st1, sy1)) :: pairs' =>
      do now <- utcnow;
      if dt2 <=? now - dt then ret energy
      else if fgt st2 st1 then
        let energy := fadd energy (fsub st2 st1) in
        if early_break then ret energy else delta_loop dt early_break pairs' energy
      else if fge sy2 st1 then
        let energy := fadd energy (fsub sy2 st1) in
        let energy := fadd energy st2 in
        if early_break then ret energy else delta_loop dt early_break pairs' energy
      else
        logger_error "Impossible energy consumption measure";;
        ret 0%Q
  end.

Definition consecutive (history : list snapshot) : list (snapshot * snapshot) :=
  zip history (tail history).

Definition delta_energy_consumption (dt : Z) (mode : string) (early_break : bool) : M Q :=
  do history <- history_getitem mode;
  delta_loop dt early_break (consecutive history) 0%Q.

(** [len(self._energy_consumption_history)]: the number of keys. *)
Definition history_len : M nat :=
  do w <- get_world; ret (size (_energy_consumption_history w)).

(** The properties return [None] by a bare [return]. *)
Definition current_total_power_consumption : M (option Q) :=
  do n <- history_len;
  if (n =? 0)%nat then ret None
  else
    let w := timedelta_minutes 30 in
    do e <- delta_energy_consumption w "total" false;
    ret (Some (fmul e (timedelta_truediv (timedelta_hours 1) w))).

Definition last_hour_cool_power_consumption : M (option Q) :=
  do n <- history_len;
  if (n =? 0)%nat then ret None
  else
    let w := timedelta_minutes 65 in
    do e <- delta_energy_consumption w ATTR_COOL true;
    ret (Some e).

Definition last_hour_heat_power_consumption : M (option Q) :=
  do n <- history_len;
  if (n =? 0)%nat then ret None
  else
    let w := timedelta_minutes 65 in
    do e <- delta_energy_consumption w ATTR_HEAT true;
    ret (Some e).

End Appliance.

(** ** Notions used to state the properties *)

(** The list stored for [mode], the empty list when the key is missing. *)
Definition history_of (w : World) (mode : string) : list snapshot :=
  default [] (_energy_consumption_history w !! mode).

(** The history map after a lookup of [mode] on the [defaultdict]. *)
Definition touched (mode : string)
    (h : gmap string (list snapshot)) : gmap string (list snapshot) :=
  match h !! mode with
  | Some _ => h
  | None => <[mode := []]> h
  end.

(** Newest first: timestamps do not increase along the list. *)
Definition newest_first (h : list snapshot) : Prop :=
  StronglySorted (λ a b, timestamp b <= timestamp a) h.

(** The contribution of a pair [(newer, older)] as the specification words
    it, over exact rationals: normal growth, else day rollover, else none
    (anomaly). *)
Definition contribution (newer older : snapshot) : option Q :=
  if Qlt_le_dec (today older) (today newer) then
    Some (today newer - today older)%Q
  else if Qlt_le_dec (yesterday newer) (today older) then
    None
  else
    Some ((yesterday newer - today older) + today newer)%Q.

(** The sum of the contributions of a list of pairs, if none is an anomaly. *)
Fixpoint total_contribution (ps : list (snapshot * snapshot)) : option Q :=
  match ps with
  | [] => Some 0%Q
  | (newer, older) :: ps' =>
      match contribution newer older, total_contribution ps' with
      | Some c, Some s => Some (c + s)%Q
      | _, _ => None
      end
  end.

(** The pairs inside the window [dt]: the walk stops at the first pair whose
    newer entry is at or before [now - dt], the [i]-th pair being tested
    against the reading number [k + i] of the clock. *)
Fixpoint in_window (clk : nat → Z) (k : nat) (dt : Z)
    (ps : list (snapshot * snapshot)) : list (snapshot * snapshot) :=
  match ps with
  | [] => []
  | p :: ps' =>
      if timestamp p.1 <=? clk k - dt then []
      else p :: in_window clk (S k) dt ps'
  end.

(** With [early_break], only the first pair counts. *)
Definition processed (early_break : bool) (ps : list (snapshot * snapshot)) :
    list (snapshot * snapshot) :=
  if early_break then take 1 ps else ps.

Definition anomaly_message : string := "Impossible energy consumption measure".

(** The indices the pruning generator yields from reading [k] on. *)
Fixpoint stale_from (clk : nat → Z) (k i : nat) (h : list snapshot) : list nat :=
  match h with
  | [] => []
  | s :: h' =>
      if timestamp s <? clk k - POWER_CONSUMPTION_MAX_HISTORY
      then i :: stale_from clk (S k) (S i) h'
      else stale_from clk (S k) (S i) h'
  end.

(** The length [idx] the recorder truncates [h] to, from reading [k] on. *)
Definition prune_idx (clk : nat → Z) (k : nat) (h : list snapshot) : nat :=
  (py_min_default (stale_from clk k 0 h) (length h) + 1)%nat.

(** The state one pass of the recorder's loop body leaves when it inserts
    [new_state]. *)
Definition inserted (clk : nat → Z) (mode : string) (new_state : snapshot)
    (w : World) : World :=
  mkWorld (values w)
    (<[mode := take (prune_idx clk (S (ticks w)) (new_state :: history_of w mode))
                 (new_state :: history_of w mode)]> (_energy_consumption_history w))
    (S (ticks w) + S (length (history_of w mode)))
    (log w).

(** An entry is stale for a cutoff when it is older than it. *)
Definition is_stale (cutoff : Z) (s : snapshot) : bool := timestamp s <? cutoff.

Definition is_fresh (cutoff : Z) (s : snapshot) : bool := negb (is_stale cutoff s).

(** The clock never goes back. *)
Definition monotone (clk : nat → Z) : Prop := ∀ n, clk n <= clk (S n).

(** The clock stands still for [n] readings after reading [k]. *)
Definition frozen (clk : nat → Z) (k n : nat) : Prop :=
  ∀ i, (i <= n)%nat → clk (k + i)%nat = clk k.

(** The index of the first entry the pruning step finds stale from reading
    [k] on, the length of the list when it finds none. *)
Fixpoint first_stale (clk : nat → Z) (k : nat) (h : list snapshot) : nat :=
  match h with
  | [] => 0
  | s :: h' =>
      if timestamp s <? clk k - POWER_CONSUMPTION_MAX_HISTORY then 0
      else S (first_stale clk (S k) h')
  end.

(** [self.values] after the mappings [fetched] have updated it in turn. *)
Definition merged (fetched : list (gmap string string))
    (v : gmap string string) : gmap string string :=
  fold_left (λ v r, r ∪ v) fetched v.

(** The poller: one [update_status] per element of [fs], whatever the
    outcome of the one before. *)
Fixpoint poll (clk : nat → Z) (fs : list (list (gmap string string)))
    (w : World) : World :=
  match fs with
  | [] => w
  | f :: fs' => poll clk fs' (update_status clk f w).2
  end.

Definition modes : list string := [ATTR_TOTAL; ATTR_COOL; ATTR_HEAT].



(** Every history is newest first and holds no timestamp ahead of the next
    reading of the clock. *)
Definition ordered (clk : nat → Z) (w : World) : Prop :=
  ∀ mode h, _energy_consumption_history w !! mode = Some h →
    newest_first h ∧ Forall (λ s, timestamp s <= clk (ticks w)) h.

(** ** Scenarios *)

(** A clock that stands still at [now]. *)
Definition steady_clock (now : Z) : nat → Z := λ _, now.

(** An appliance holding the history map [h] and nothing else. *)
Definition with_history (h : gmap string (list snapshot)) : World :=
  mkWorld ∅ h 0 [].

Definition noon : Z := timedelta_hours 12.

(** Normal growth: 45 then 50, ten minutes apart. *)
Definition growth_history : list snapshot :=
  [(noon, 50%Q, 40%Q); (noon - timedelta_minutes 10, 45%Q, 40%Q)].

(** Anomaly: today falls from 50 to 30 while yesterday is 10. *)
Definition anomaly_history : list snapshot :=
  [(noon, 30%Q, 10%Q); (noon - timedelta_minutes 10, 50%Q, 40%Q)].

(** Normal growth for the newest pair, an anomaly for the pair after it. *)
Definition late_anomaly_history : list snapshot :=
  [(noon, 50%Q, 40%Q);
   (noon - timedelta_minutes 10, 45%Q, 40%Q);
   (noon - timedelta_minutes 20, 60%Q, 0%Q)].

(** A device that reports its counters. *)
Definition reporting_values : gmap string string :=
  list_to_map
    [("this_year", "1"); ("datas", "1000/3000");
     ("curr_day_cool", "1/2"); ("prev_1day_cool", "3");
     ("curr_day_heat", "0"); ("prev_1day_heat", "0/0")]%string.

(** The same device with a field that is not numeric, and with the field
    missing. *)
Definition garbled_values : gmap string string :=
  <["datas" := "n/a"]> reporting_values.

Definition missing_values : gmap string string :=
  delete "datas" reporting_values.

(** A history reaching back five hours, under a device that reports. *)
Definition aged_history : list snapshot :=
  [(noon - timedelta_hours 1, 2%Q, 1%Q);
   (noon - timedelta_hours 4, 1%Q, 1%Q);
   (noon - timedelta_hours 5, (1 # 2)%Q, 1%Q)].

Definition aged_world : World :=
  mkWorld reporting_values {[ATTR_TOTAL := aged_history]} 0 [].

(** A clock that advances by one minute at every reading, and a device
    whose total counters move between two refreshes. *)
Definition ticking_clock (n : nat) : Z := noon + Z.of_nat n * microseconds_per_minute.

Definition next_day_values : gmap string string := {["datas" := "3000/500"%string]}.


(** ** The rest of the appliance: responses, translations, addresses *)

(** [s.split(sep)] for a separator of one character, and [sep.join(l)]. *)
Fixpoint split_char (sep : ascii) (s : string) : list string :=
  match s with
  | EmptyString => [EmptyString]
  | String c s' =>
      if Ascii.eqb c sep then EmptyString :: split_char sep s'
      else match split_char sep s' with
           | [] => [String c EmptyString]
           | w :: ws => String c w :: ws
           end
  end.

Fixpoint join (sep : string) (l : list string) : string :=
  match l with
  | [] => EmptyString
  | [x] => x
  | x :: l' => x +:+ sep +:+ join sep l'
  end.

(** [c in s] for a character [c]. *)
Fixpoint has_char (c : ascii) (s : string) : bool :=
  match s with
  | EmptyString => false
  | String a s' => Ascii.eqb a c || has_char c s'
  end.

(** [dict(fields)] on a list of lists, from the dictionary [acc]: every
    element must have two items, a later key replaces an earlier one; [None]
    stands for [ValueError]. *)
Fixpoint dict_of_fields (fields : list (list string))
    (acc : gmap string string) : option (gmap string string) :=
  match fields with
  | [] => Some acc
  | [k; v] :: fields' => dict_of_fields fields' (<[k := v]> acc)
  | _ :: _ => None
  end.

Section Response.

(** [urllib.parse.unquote], a function of the standard library. *)
Variable unquote : string → string.

Definition parse_response (response_body : string) : result (gmap string string) :=
  match dict_of_fields (map (split_char "=") (split_char "," response_body)) ∅ with
  | None => Raise ValueError
  | Some response =>
      match response !! "ret" with
      | None => Raise ValueError
      | Some ret_ =>
          if negb (String.eqb ret_ "OK") then Ok ∅
          else
            match response !! "name" with
            | Some name => Ok (<["name" := unquote name]> response)
            | None => Ok response
            end
      end
  end.

End Response.

(** The text of a response made of the fields [kvs]: [k=v] joined by
    commas. *)
Definition response_text (kvs : list (string * string)) : string :=
  join "," (map (λ kv, kv.1 +:+ "=" +:+ kv.2) kvs).

(** The dictionary holding the pairs [kvs], a later pair replacing an
    earlier one with the same key. *)
Definition dict_of_pairs (kvs : list (string * string)) : gmap string string :=
  fold_left (λ m kv, <[kv.1 := kv.2]> m) kvs ∅.

(** [value[i:i+2] for i in range(0, len(value), 2)] *)
Fixpoint pairs_of_chars (value : string) : list string :=
  match value with
  | EmptyString => []
  | String a EmptyString => [String a EmptyString]
  | String a (String b value') => String a (String b EmptyString) :: pairs_of_chars value'
  end.

Definition translate_mac (value : string) : string :=
  join ":" (pairs_of_chars value).

(** The string without its colons. *)
Fixpoint without_colons (s : string) : string :=
  match s with
  | EmptyString => EmptyString
  | String c s' => if Ascii.eqb c ":" then without_colons s' else String c (without_colons s')
  end.

Section Translations.

(** [cls.TRANSLATIONS]: for a dimension, the dictionary from the values of
    the device to their names, as the list of its items in order; the keys
    of one dictionary are distinct. *)
Variable TRANSLATIONS : gmap string (list (string * string)).

(** [d.get(key)] on the items of a dictionary. *)
Fixpoint items_get (items : list (string * string)) (key : string) : option string :=
  match items with
  | [] => None
  | (k, v) :: items' => if String.eqb k key then Some v else items_get items' key
  end.

(** [{v: k for k, v in item.items()}] *)
Definition reversed (items : list (string * string)) : gmap string string :=
  fold_left (λ m kv, <[kv.2 := kv.1]> m) items ∅.

Definition daikin_to_human (dimension value : string) : string :=
  match TRANSLATIONS !! dimension with
  | Some items => default value (items_get items value)
  | None => value
  end.

Definition human_to_daikin (dimension value : string) : string :=
  match TRANSLATIONS !! dimension with
  | Some items => default value (reversed items !! value)
  | None => value
  end.

End Translations.

(** What [_temperature] returns: a float or [False]. *)
Inductive temperature (F : Type) : Type :=
| Degrees (f : F)
| PyFalse.

Arguments Degrees {F} f.
Arguments PyFalse {F}.

Section Temperature.

(** [float(s)] on a string, [None] standing for [ValueError]. *)
Variable F : Type.
Variable py_float : string → option F.

Variable values : gmap string string.

(** [float(None)] raises [TypeError], which is not caught. *)
Definition _temperature (dimension : string) : result (temperature F) :=
  match values !! dimension with
  | None => Raise TypeError
  | Some raw =>
      match py_float raw with
      | Some f => Ok (Degrees f)
      | None => Ok PyFalse
      end
  end.

Definition outside_temperature : result (temperature F) := _temperature "otemp".

Definition inside_temperature : result (temperature F) := _temperature "htemp".

Definition target_temperature : result (temperature F) := _temperature "stemp".

(** [self.outside_temperature is not None]: neither a float nor [False] is
    [None]. *)
Definition support_outside_temperature : result bool :=
  result_bind outside_temperature (λ x,
    match x with
    | Degrees _ => Ok true
    | PyFalse => Ok true
    end).

End Temperature.

(** ** Errors and outcomes of the network side *)

Inductive error : Type :=
| Builtin (e : exn)
| KeyError
| ServerDisconnectedError.

Inductive outcome (A : Type) : Type :=
| Done (a : A)
| Failed (e : error).

Arguments Done {A} a.
Arguments Failed {A} e.

Section Address.

(** [socket.inet_aton] succeeds, [discovery.get_name] (a dictionary or
    [None]) and [socket.gethostbyname] ([None] for [socket.gaierror]). *)
Variable inet_aton : string → bool.
Variable get_name : string → option (gmap string string).
Variable gethostbyname : string → option string.

(** The local variable [device_ip] at the end of [discover_ip]. *)
Definition device_ip_of (device_id : string) : outcome string :=
  if inet_aton device_id then Done device_id
  else
    match get_name device_id with
    | None =>
        match gethostbyname device_id with
        | Some ip => Done ip
        | None => Failed (Builtin ValueError)
        end
    | Some device_name =>
        match device_name !! "ip" with
        | Some ip => Done ip
        | None => Failed KeyError
        end
    end.

(** [discover_ip] ends with [return device_id]. *)
Definition discover_ip (device_id : string) : outcome string :=
  match device_ip_of device_id with
  | Done device_ip => Done device_id
  | Failed e => Failed e
  end.

(** The attribute [_device_ip] that [__init__] sets; [session] tells whether
    a session was given. *)
Definition init_device_ip (device_id : string) (session : bool) : outcome string :=
  if session then Done device_id else discover_ip device_id.

End Address.

(** One attempt of [_run_get_resource]: the server disconnects, or answers
    with a status and a body. *)
Inductive attempt : Type :=
| Disconnects
| Answers (status : Z) (body : string).

Section Fetch.

Variable unquote : string → string.

(** The attempts the device answers with, in order. *)
Variable net : nat → attempt.

(** [_run_get_resource] on an answer. *)
Definition _run_get_resource (status : Z) (body : string) : outcome (gmap string string) :=
  if status =? 200 then
    match parse_response unquote body with
    | Ok response => Done response
    | Raise e => Failed (Builtin e)
    end
  else Done ∅.

(** [_get_resource], from the attempt number [n]: the outcome and the number
    of the next attempt.  [retries] is a natural number, as the default 3
    and the recursive calls have it. *)
Fixpoint _get_resource (retries : nat) (n : nat) : outcome (gmap string string) * nat :=
  match net n with
  | Answers status body => (_run_get_resource status body, S n)
  | Disconnects =>
      match retries with
      | O => (Failed ServerDisconnectedError, S n)
      | S retries' => _get_resource retries' (S n)
      end
  end.

End Fetch.

(** A field with a trailing slash, and a device that answers without the
    yearly counters. *)
Definition trailing_slash_values : gmap string string :=
  <["datas" := "10/20/"]> reporting_values.

Definition silent_values : gmap string string :=
  {["htemp" := "21.0"%string]}.

(** A pair of a response is well formed when neither its key nor its value
    holds a comma or an equals sign. *)
Definition well_formed (kv : string * string) : Prop :=
  has_char "," kv.1 = false ∧ has_char "=" kv.1 = false
  ∧ has_char "," kv.2 = false ∧ has_char "=" kv.2 = false.

(** The answer of a device to [aircon/get_sensor_info], and a table of
    translations. *)
Definition sensor_pairs : list (string * string) :=
  [("ret", "OK"); ("htemp", "21.0"); ("otemp", "-"); ("err", "0")]%string.

Definition mode_translations : gmap string (list (string * string)) :=
  {["mode" := [("2", "dry"); ("3", "cool"); ("4", "hot"); ("6", "fan")]%string]}.

(** A device that disconnects twice and then answers. *)
Definition flaky_net (n : nat) : attempt :=
  match n with
  | 0%nat | 1%nat => Disconnects
  | _ => Answers 200 "ret=OK,pow=1"
  end.

(** ** Floating-point arithmetic with its rounding *)

(** The sum and the difference of two floats are the exact results rounded
    to a float: [rnd] is the rounding, a function on the rationals (every
    finite float is one).  The comparisons of floats are exact.  [fadd] and
    [fsub] above are the two operations for the rounding [Qred], which rounds
    nothing away. *)
Definition float_add (rnd : Q → Q) (x y : Q) : Q := rnd (x + y)%Q.
Definition float_sub (rnd : Q → Q) (x y : Q) : Q := rnd (x - y)%Q.

(** [a / b] rounded to the nearest integer, ties to even ([0 <= a], [0 < b]). *)
Definition round_half_even (a b : Z) : Z :=
  let q := a / b in
  let r := a mod b in
  if 2 * r <? b then q
  else if b <? 2 * r then q + 1
  else if Z.even q then q else q + 1.

(** [n / d / 2^e] as a fraction of integers. *)
Definition scaled (n d e : Z) : Z * Z :=
  if 0 <=? e then (n, d * 2 ^ e) else (n * 2 ^ (- e), d).

(** The integer part of the binary logarithm of [n / d] ([0 < n], [0 < d]). *)
Definition binade (n d : Z) : Z :=
  let e0 := Z.log2 n - Z.log2 d in
  let '(a, b) := scaled n d e0 in
  if b <=? a then e0 else e0 - 1.

(** Rounding to binary64, the float of Python: 53 significant bits, ties to
    even, gradual underflow; the overflow to infinity (beyond [1.8e308]) is
    not modelled. *)
Definition round64_positive (n d : Z) : Q :=
  let e := Z.max (binade n d - 52) (- 1074) in
  let '(a, b) := scaled n d e in
  let m := round_half_even a b in
  Qred (if 0 <=? e then inject_Z (m * 2 ^ e) else m # Z.to_pos (2 ^ (- e))).

Definition round64 (q : Q) : Q :=
  match Qnum q with
  | Z0 => 0%Q
  | Zpos _ => round64_positive (Qnum q) (Zpos (Qden q))
  | Zneg _ => Qred (Qopp (round64_positive (- Qnum q) (Zpos (Qden q))))
  end.

Section Rounded.

Variable rnd : Q → Q.
Variable clk : nat → Z.

(** The loop of [delta_energy_consumption] with the arithmetic of floats
    rounded by [rnd]. *)
Fixpoint delta_loop_rounded (dt : Z) (early_break : bool)
    (pairs : list (snapshot * snapshot)) (energy : Q) : M Q :=
  match pairs with
  | [] => ret energy
  | ((dt2, st2, sy2), (dt1, st1, sy1)) :: pairs' =>
      do now <- utcnow clk;
      if dt2 <=? now - dt then ret energy
      else if fgt st2 st1 then
        let energy := float_add rnd energy (float_sub rnd st2 st1) in
        if early_break then ret energy
        else delta_loop_rounded dt early_break pairs' energy
      else if fge sy2 st1 then
        let energy := float_add rnd energy (float_sub rnd sy2 st1) in
        let energy := float_add rnd energy st2 in
        if early_break then ret energy
        else delta_loop_rounded dt early_break pairs' energy
      else
        logger_error "Impossible energy consumption measure";;
        ret 0%Q
  end.

Definition delta_energy_consumption_rounded (dt : Z) (mode : string)
    (early_break : bool) : M Q :=
  do history <- history_getitem mode;
  delta_loop_rounded dt early_break (consecutive history) 0%Q.

(** What one pair adds to the energy accumulated so far, in the two ordered
    cases of the specification: the difference of the today counters when
    the counter grew, else the difference between the newer yesterday and the
    older today and then the newer today when that difference is not
    negative; nothing in the remaining case (anomaly). *)
Definition add_contribution (energy : Q) (newer older : snapshot) : option Q :=
  if Qlt_le_dec (today older) (today newer) then
    Some (float_add rnd energy (float_sub rnd (today newer) (today older)))
  else if Qlt_le_dec (yesterday newer) (today older) then
    None
  else
    Some (float_add rnd
            (float_add rnd energy (float_sub rnd (yesterday newer) (today older)))
            (today newer)).

(** The energy accumulated over a list of pairs, in order, if none is an
    anomaly. *)
Fixpoint accumulate (energy : Q) (ps : list (snapshot * snapshot)) : option Q :=
  match ps with
  | [] => Some energy
  | (newer, older) :: ps' =>
      match add_contribution energy newer older with
      | Some energy' => accumulate energy' ps'
      | None => None
      end
  end.

End Rounded.

(** The today counters 0.009, 0.001 and 0 as floats, ten minutes apart, and
    a day rollover followed by normal growth. *)
Definition rounding_history : list snapshot :=
  [(noon, round64 (9 # 1000), 0%Q);
   (noon - timedelta_minutes 10, round64 (1 # 1000), 0%Q);
   (noon - timedelta_minutes 20, 0%Q, 0%Q)].


(** The list the pruning step of [register_mode] walks: the history of the
    mode with the new state [(observedAt, t, y)] inserted at its head. *)
Definition observed (clk : nat → Z) (mode : string) (t y : Q) (w : World) :
    list snapshot :=
  ((clk (ticks w), t, y) : snapshot) :: history_of w mode.

(** The cutoff [observedAt - 3h], from the reading that stamps the new
    state. *)
Definition first_cutoff (clk : nat → Z) (w : World) : Z :=
  clk (ticks w) - POWER_CONSUMPTION_MAX_HISTORY.

(** The cutoff of the last reading the pruning step takes: one reading per
    entry of the list it walks, after the one that stamps the new state. *)
Definition last_cutoff (clk : nat → Z) (mode : string) (w : World) : Z :=
  clk (S (ticks w) + length (history_of w mode))%nat - POWER_CONSUMPTION_MAX_HISTORY.

(** A clock that advances by one microsecond at every reading, and a
    history with an entry just inside the horizon and one beyond it. *)
Definition microsecond_clock (n : nat) : Z := noon + Z.of_nat n.

Definition edge_history : list snapshot :=
  [(noon - timedelta_hours 3 + 1, 2%Q, 1%Q);
   (noon - timedelta_hours 4, 1%Q, 1%Q)].

Definition edge_world : World :=
  mkWorld reporting_values {[ATTR_TOTAL := edge_history]} 0 [].

(** ** Parsing, on examples *)

Example split_slash_ex : split_slash "1/20//3" = ["1"; "20"; ""; "3"]%string.
Proof. reflexivity. Qed.

Example py_int_ex :
  map py_int [" 12 "; "-7"; "+1_000"; ""; "1__0"; "_1"; "1_"; "- 1"; "a"; "007"]%string
  = [Some 12; Some (-7); Some 1000; None; None; None; None; None; None; Some 7].
Proof. reflexivity. Qed.

(** ** The integrator [delta_energy_consumption] *)

Section Integrator.

Variable clk : nat → Z.

Lemma fgt_spec (x y : Q) : fgt x y = true ↔ (y < x)%Q.
Proof.
  unfold fgt. rewrite negb_true_iff, <- not_true_iff_false, Qle_bool_iff.
  split; [apply Qnot_le_lt | apply Qlt_not_le].
Qed.

Lemma fge_spec (x y : Q) : fge x y = true ↔ (y <= x)%Q.
Proof. unfold fge. apply Qle_bool_iff. Qed.

Lemma contribution_growth (newer older : snapshot) :
  fgt (today newer) (today older) = true →
  contribution newer older = Some (today newer - today older)%Q.
Proof.
  intros H. apply fgt_spec in H. unfold contribution.
  destruct (Qlt_le_dec _ _) as [_|Hle]; [done|].
  exfalso. exact (Qlt_not_le _ _ H Hle).
Qed.

Lemma contribution_rollover (newer older : snapshot) :
  fgt (today newer) (today older) = false →
  fge (yesterday newer) (today older) = true →
  contribution newer older = Some ((yesterday newer - today older) + today newer)%Q.
Proof.
  intros H1 H2. apply fge_spec in H2. unfold contribution.
  destruct (Qlt_le_dec _ _) as [Hlt|_].
  { apply fgt_spec in Hlt. congruence. }
  destruct (Qlt_le_dec _ _) as [Hlt|_]; [|done].
  exfalso. exact (Qlt_not_le _ _ Hlt H2).
Qed.

Lemma contribution_anomaly (newer older : snapshot) :
  fgt (today newer) (today older) = false →
  fge (yesterday newer) (today older) = false →
  contribution newer older = None.
Proof.
  intros H1 H2. unfold contribution.
  destruct (Qlt_le_dec _ _) as [Hlt|_].
  { apply fgt_spec in Hlt. congruence. }
  destruct (Qlt_le_dec _ _) as [_|Hle]; [done|].
  apply fge_spec in Hle. congruence.
Qed.

(** What a run of the loop does: it raises nothing, touches neither the
    values nor the history, takes at most one reading per pair, and returns
    the energy it started with plus the contributions of the processed
    pairs, or [0] with one logged error when one of them is an anomaly. *)
Lemma delta_loop_spec (dt : Z) (early_break : bool)
    (pairs : list (snapshot * snapshot)) :
  ∀ (energy : Q) (w : World),
  ∃ (e : Q) (w' : World),
    delta_loop clk dt early_break pairs energy w = (Ok e, w')
    ∧ values w' = values w
    ∧ _energy_consumption_history w' = _energy_consumption_history w
    ∧ match total_contribution
              (processed early_break (in_window clk (ticks w) dt pairs)) with
      | Some s => (e == energy + s)%Q ∧ log w' = log w
      | None => e = 0%Q ∧ log w' = log w ++ [anomaly_message]
      end.
Proof.
  induction pairs as [|[[[dt2 st2] sy2] [[dt1 st1] sy1]] pairs IH]; intros energy w.
  { exists energy, w. simpl. unfold ret. split_and!; try done.
    destruct early_break; simpl; (split; [ring | done]). }
  simpl. unfold bind at 1, utcnow at 1. simpl. unfold timestamp. simpl.
  destruct (dt2 <=? clk (ticks w) - dt) eqn:Hout.
  { eexists _, _. unfold ret. split_and!; try done.
    destruct early_break; simpl; (split; [ring | done]). }
  destruct (fgt st2 st1) eqn:Hgt.
  { pose proof (contribution_growth (dt2, st2, sy2) (dt1, st1, sy1) Hgt) as Hc.
    unfold today in Hc; simpl in Hc.
    destruct early_break.
    - eexists _, _. unfold ret. split_and!; try done.
      simpl. rewrite Hc. split; [|done].
      unfold fadd, fsub. rewrite !Qred_correct. ring.
    - destruct (IH (fadd energy (fsub st2 st1)) (set_ticks (S (ticks w)) w))
        as (e & w' & Hrun & Hv & Hh & Hres).
      exists e, w'. split_and!; try done.
      simpl in *. rewrite Hc.
      destruct (total_contribution _) as [s|]; [|done].
      destruct Hres as [He Hl]. split; [|done].
      rewrite He. unfold fadd, fsub. rewrite !Qred_correct. ring. }
  destruct (fge sy2 st1) eqn:Hge.
  { pose proof (contribution_rollover (dt2, st2, sy2) (dt1, st1, sy1) Hgt Hge) as Hc.
    unfold today, yesterday in Hc; simpl in Hc.
    destruct early_break.
    - eexists _, _. unfold ret. split_and!; try done.
      simpl. rewrite Hc. split; [|done].
      unfold fadd, fsub. rewrite !Qred_correct. ring.
    - destruct (IH (fadd (fadd energy (fsub sy2 st1)) st2) (set_ticks (S (ticks w)) w))
        as (e & w' & Hrun & Hv & Hh & Hres).
      exists e, w'. split_and!; try done.
      simpl in *. rewrite Hc.
      destruct (total_contribution _) as [s|]; [|done].
      destruct Hres as [He Hl]. split; [|done].
      rewrite He. unfold fadd, fsub. rewrite !Qred_correct. ring. }
  pose proof (contribution_anomaly (dt2, st2, sy2) (dt1, st1, sy1) Hgt Hge) as Hc.
  unfold today, yesterday in Hc; simpl in Hc.
  eexists _, _. unfold bind, logger_error, modify_world, ret. simpl.
  split_and!; try done.
  destruct early_break; simpl; rewrite Hc; done.
Qed.

End Integrator.

Section IntegratorCalls.

Variable clk : nat → Z.

Lemma history_getitem_run (mode : string) (w : World) :
  history_getitem mode w
  = (Ok (history_of w mode),
     set_history (touched mode (_energy_consumption_history w)) w).
Proof.
  unfold history_getitem, history_of, touched.
  destruct (_energy_consumption_history w !! mode); [|done].
  by destruct w.
Qed.

Lemma touched_lookup (mode m : string) (h : gmap string (list snapshot)) :
  default [] (touched mode h !! m) = default [] (h !! m).
Proof.
  unfold touched. destruct (h !! mode) eqn:Hm; [done|].
  destruct (decide (mode = m)) as [->|Hne].
  - by rewrite lookup_insert_eq, Hm.
  - by rewrite lookup_insert_ne.
Qed.

Lemma delta_energy_consumption_spec (dt : Z) (mode : string) (early_break : bool)
    (w : World) :
  ∃ (e : Q) (w' : World),
    delta_energy_consumption clk dt mode early_break w = (Ok e, w')
    ∧ values w' = values w
    ∧ _energy_consumption_history w' = touched mode (_energy_consumption_history w)
    ∧ match total_contribution
              (processed early_break
                 (in_window clk (ticks w) dt (consecutive (history_of w mode)))) with
      | Some s => (e == s)%Q ∧ log w' = log w
      | None => e = 0%Q ∧ log w' = log w ++ [anomaly_message]
      end.
Proof.
  unfold delta_energy_consumption, bind. rewrite history_getitem_run.
  destruct (delta_loop_spec clk dt early_break (consecutive (history_of w mode)) 0%Q
              (set_history (touched mode (_energy_consumption_history w)) w))
    as (e & w' & Hrun & Hv & Hh & Hres).
  exists e, w'. rewrite Hrun. split_and!; try done.
  simpl in Hres. destruct (total_contribution _); [|done].
  destruct Hres as [He Hl]. split; [|done]. rewrite He. ring.
Qed.

Lemma in_window_take (dt : Z) (ps : list (snapshot * snapshot)) :
  ∀ (k i : nat),
  (∀ j p, (j <= i)%nat → ps !! j = Some p → clk (k + j) - dt < timestamp p.1) →
  take (S i) (in_window clk k dt ps) = take (S i) ps.
Proof.
  induction ps as [|p ps IH]; intros k i Hin; [done|].
  simpl. pose proof (Hin 0%nat p ltac:(lia) eq_refl) as H0.
  rewrite Nat.add_0_r in H0.
  destruct (timestamp p.1 <=? clk k - dt) eqn:Hout; [apply Z.leb_le in Hout; lia|].
  simpl. f_equal. destruct i as [|i]; [by rewrite !take_0|].
  apply IH. intros j q Hj Hq.
  specialize (Hin (S j) q ltac:(lia) Hq).
  by replace (k + S j)%nat with (S k + j)%nat in Hin by lia.
Qed.

Lemma total_contribution_anomaly (ps : list (snapshot * snapshot)) :
  ∀ (i : nat) (newer older : snapshot),
  ps !! i = Some (newer, older) →
  contribution newer older = None →
  total_contribution ps = None.
Proof.
  induction ps as [|[n o] ps IH]; intros i newer older Hi Hc; [done|].
  simpl. destruct i as [|i].
  - injection Hi as -> ->. by rewrite Hc.
  - rewrite (IH i newer older Hi Hc). by destruct (contribution n o).
Qed.

(** Reading a history does not change what any later reading finds. *)
Lemma delta_energy_consumption_frame (dt : Z) (mode : string) (early_break : bool)
    (w : World) (m : string) :
  history_of (delta_energy_consumption clk dt mode early_break w).2 m = history_of w m.
Proof.
  destruct (delta_energy_consumption_spec dt mode early_break w)
    as (e & w' & Hrun & _ & Hh & _).
  rewrite Hrun. simpl. unfold history_of. rewrite Hh. apply touched_lookup.
Qed.

End IntegratorCalls.

(** ** Properties of the integrator *)

Lemma contribution_none (newer older : snapshot) :
  (today newer <= today older)%Q →
  (yesterday newer < today older)%Q →
  contribution newer older = None.
Proof.
  intros Hle Hlt. unfold contribution.
  destruct (Qlt_le_dec _ _) as [H|_]; [exfalso; exact (Qlt_not_le _ _ H Hle)|].
  destruct (Qlt_le_dec _ _) as [_|H]; [done|].
  exfalso. exact (Qlt_not_le _ _ Hlt H).
Qed.

Lemma add_contribution_growth (rnd : Q → Q) (energy : Q) (newer older : snapshot) :
  fgt (today newer) (today older) = true →
  add_contribution rnd energy newer older
  = Some (float_add rnd energy (float_sub rnd (today newer) (today older))).
Proof.
  intros H. apply fgt_spec in H. unfold add_contribution.
  destruct (Qlt_le_dec _ _) as [_|Hle]; [done|].
  exfalso. exact (Qlt_not_le _ _ H Hle).
Qed.

Lemma add_contribution_rollover (rnd : Q → Q) (energy : Q) (newer older : snapshot) :
  fgt (today newer) (today older) = false →
  fge (yesterday newer) (today older) = true →
  add_contribution rnd energy newer older
  = Some (float_add rnd
            (float_add rnd energy (float_sub rnd (yesterday newer) (today older)))
            (today newer)).
Proof.
  intros H1 H2. apply fge_spec in H2. unfold add_contribution.
  destruct (Qlt_le_dec _ _) as [Hlt|_].
  { apply fgt_spec in Hlt. congruence. }
  destruct (Qlt_le_dec _ _) as [Hlt|_]; [|done].
  exfalso. exact (Qlt_not_le _ _ Hlt H2).
Qed.

Lemma add_contribution_anomaly (rnd : Q → Q) (energy : Q) (newer older : snapshot) :
  fgt (today newer) (today older) = false →
  fge (yesterday newer) (today older) = false →
  add_contribution rnd energy newer older = None.
Proof.
  intros H1 H2. unfold add_contribution.
  destruct (Qlt_le_dec _ _) as [Hlt|_].
  { apply fgt_spec in Hlt. congruence. }
  destruct (Qlt_le_dec _ _) as [_|Hle]; [done|].
  apply fge_spec in Hle. congruence.
Qed.

(** A run of the loop in the arithmetic of floats, whatever the rounding:
    it returns the energy accumulated over the processed pairs, in the order
    of the walk, or [0] with one logged error when one of them is an
    anomaly. *)
Lemma delta_loop_rounded_spec (rnd : Q → Q) (clk : nat → Z) (dt : Z)
    (early_break : bool) (pairs : list (snapshot * snapshot)) :
  ∀ (energy : Q) (w : World),
  ∃ w' : World,
    delta_loop_rounded rnd clk dt early_break pairs energy w
    = (Ok (default 0%Q
             (accumulate rnd energy
                (processed early_break (in_window clk (ticks w) dt pairs)))), w')
    ∧ values w' = values w
    ∧ _energy_consumption_history w' = _energy_consumption_history w
    ∧ log w'
      = match accumulate rnd energy
                (processed early_break (in_window clk (ticks w) dt pairs)) with
        | Some _ => log w
        | None => log w ++ [anomaly_message]
        end.
Proof.
  induction pairs as [|[[[dt2 st2] sy2] [[dt1 st1] sy1]] pairs IH]; intros energy w.
  { exists w. by destruct early_break. }
  cbn [delta_loop_rounded in_window]. unfold bind at 1, utcnow at 1.
  cbn [fst snd ticks]. unfold timestamp. cbn [fst snd].
  destruct (dt2 <=? clk (ticks w) - dt) eqn:Hout.
  { eexists. unfold ret. by destruct early_break. }
  destruct (fgt st2 st1) eqn:Hgt.
  { pose proof (add_contribution_growth rnd energy (dt2, st2, sy2) (dt1, st1, sy1) Hgt)
      as Hc.
    unfold today in Hc; cbn [fst snd] in Hc.
    destruct early_break.
    - eexists. unfold ret. cbn [processed take accumulate]. rewrite Hc.
      rewrite take_0. done.
    - destruct (IH (float_add rnd energy (float_sub rnd st2 st1))
                  (set_ticks (S (ticks w)) w)) as (w' & Hrun & Hv & Hh & Hlog).
      exists w'. cbn [processed accumulate] in *. rewrite Hc. done. }
  destruct (fge sy2 st1) eqn:Hge.
  { pose proof (add_contribution_rollover rnd energy (dt2, st2, sy2) (dt1, st1, sy1)
                  Hgt Hge) as Hc.
    unfold today, yesterday in Hc; cbn [fst snd] in Hc.
    destruct early_break.
    - eexists. unfold ret. cbn [processed take accumulate]. rewrite Hc.
      rewrite take_0. done.
    - destruct (IH (float_add rnd (float_add rnd energy (float_sub rnd sy2 st1)) st2)
                  (set_ticks (S (ticks w)) w)) as (w' & Hrun & Hv & Hh & Hlog).
      exists w'. cbn [processed accumulate] in *. rewrite Hc. done. }
  pose proof (add_contribution_anomaly rnd energy (dt2, st2, sy2) (dt1, st1, sy1)
                Hgt Hge) as Hc.
  eexists. unfold bind, logger_error, modify_world, ret.
  destruct early_break; cbn [processed take accumulate]; rewrite Hc; done.
Qed.

(** The loop of the model without rounding error is the loop in the
    arithmetic of floats for the rounding [Qred]. *)
Lemma delta_loop_rounded_Qred (clk : nat → Z) (dt : Z) (early_break : bool)
    (pairs : list (snapshot * snapshot)) :
  ∀ (energy : Q) (w : World),
    delta_loop_rounded Qred clk dt early_break pairs energy w
    = delta_loop clk dt early_break pairs energy w.
Proof.
  induction pairs as [|[[[dt2 st2] sy2] [[dt1 st1] sy1]] pairs IH]; intros energy w;
    [done|].
  cbn [delta_loop_rounded delta_loop]. unfold bind at 1 3.
  destruct (utcnow clk w) as [[now|e] w1]; [|done].
  destruct (dt2 <=? now - dt); [done|].
  destruct (fgt st2 st1); [destruct early_break; [done|by rewrite IH]|].
  destruct (fge sy2 st1); [destruct early_break; [done|by rewrite IH]|done].
Qed.



(** Rounding at work: over the today counters 0.009, 0.001 and 0 the walk
    returns 0.0090000000000000011, which is neither the exact sum nor the
    float 0.009. *)
Example delta_energy_consumption_rounds :
  (delta_energy_consumption_rounded round64 (steady_clock noon) (timedelta_minutes 30)
     ATTR_TOTAL false (with_history {[ATTR_TOTAL := rounding_history]})).1
  = Ok (1297036692682703 # 144115188075855872)
  ∧ round64 (9 # 1000) = (5188146770730811 # 576460752303423488)%Q
  ∧ ¬ (1297036692682703 # 144115188075855872 == 9 # 1000)%Q
  ∧ ¬ (1297036692682703 # 144115188075855872 == round64 (9 # 1000))%Q.
Proof.
  split_and!.
  - vm_compute. reflexivity.
  - vm_compute. reflexivity.
  - vm_compute. discriminate.
  - vm_compute. discriminate.
Qed.

(** C2, as stated, fails when [early_break] is set: the walk stops after
    the newest pair and never meets an anomaly further down the window. *)
Lemma delta_energy_consumption_early_break_skips_anomaly :
  consecutive late_anomaly_history !! 1%nat
  = Some ((noon - timedelta_minutes 10, 45%Q, 40%Q),
          (noon - timedelta_minutes 20, 60%Q, 0%Q))
  ∧ (45 <= 60)%Q ∧ (40 < 60)%Q
  ∧ steady_clock noon 1%nat - timedelta_minutes 65 < noon - timedelta_minutes 10
  ∧ delta_energy_consumption (steady_clock noon) (timedelta_minutes 65) ATTR_COOL true
      (with_history {[ATTR_COOL := late_anomaly_history]})
    = (Ok 5%Q, set_ticks 1 (with_history {[ATTR_COOL := late_anomaly_history]})).
Proof.
  split_and!.
  - reflexivity.
  - vm_compute. discriminate.
  - vm_compute. reflexivity.
  - vm_compute. reflexivity.
  - vm_compute. reflexivity.
Qed.

(** C2, amended. When a consecutive pair is an anomaly, it and every pair
    before it lie inside the window, and [early_break] is unset or the pair
    is the newest one, the call logs one error, returns exactly [0] whatever
    was accumulated, raises nothing and leaves values and histories alone. *)
Theorem delta_energy_consumption_anomaly (clk : nat → Z) (dt : Z) (mode : string)
    (early_break : bool) (w : World) (i : nat) (newer older : snapshot) :
  consecutive (history_of w mode) !! i = Some (newer, older) →
  (today newer <= today older)%Q →
  (yesterday newer < today older)%Q →
  (∀ j p, (j <= i)%nat → consecutive (history_of w mode) !! j = Some p →
          clk (ticks w + j)%nat - dt < timestamp p.1) →
  early_break = false ∨ i = 0%nat →
  ∃ w' : World,
    delta_energy_consumption clk dt mode early_break w = (Ok 0%Q, w')
    ∧ log w' = log w ++ [anomaly_message]
    ∧ values w' = values w
    ∧ ∀ m, history_of w' m = history_of w m.
Proof.
  intros Hi Hle Hlt Hwin Hbreak.
  pose proof (contribution_none newer older Hle Hlt) as Hc.
  pose proof (in_window_take clk dt _ (ticks w) i Hwin) as Htake.
  assert (in_window clk (ticks w) dt (consecutive (history_of w mode)) !! i
          = Some (newer, older)) as Hin.
  { rewrite <- (lookup_take_lt _ (S i) i) by lia.
    rewrite Htake, lookup_take_lt by lia. done. }
  assert (total_contribution
            (processed early_break
               (in_window clk (ticks w) dt (consecutive (history_of w mode)))) = None)
    as Hnone.
  { destruct Hbreak as [-> | ->]; simpl.
    - by apply (total_contribution_anomaly _ i newer older).
    - apply (total_contribution_anomaly _ 0%nat newer older); [|done].
      destruct early_break; simpl; [|done].
      by rewrite lookup_take_lt by lia. }
  destruct (delta_energy_consumption_spec clk dt mode early_break w)
    as (e & w' & Hrun & Hv & Hh & Hres).
  rewrite Hnone in Hres. destruct Hres as [-> Hlog].
  exists w'. split_and!; try done.
  intros m. unfold history_of. rewrite Hh. apply touched_lookup.
Qed.

Lemma delta_energy_consumption_anomaly_witness :
  ∃ w' : World,
    delta_energy_consumption (steady_clock noon) (timedelta_minutes 30) ATTR_TOTAL false
      (with_history {[ATTR_TOTAL := anomaly_history]}) = (Ok 0%Q, w')
    ∧ log w' = log (with_history {[ATTR_TOTAL := anomaly_history]}) ++ [anomaly_message]
    ∧ values w' = values (with_history {[ATTR_TOTAL := anomaly_history]})
    ∧ ∀ m, history_of w' m = history_of (with_history {[ATTR_TOTAL := anomaly_history]}) m.
Proof.
  apply (delta_energy_consumption_anomaly (steady_clock noon) (timedelta_minutes 30)
           ATTR_TOTAL false (with_history {[ATTR_TOTAL := anomaly_history]}) 0%nat
           (noon, 30%Q, 10%Q) (noon - timedelta_minutes 10, 50%Q, 40%Q)).
  - vm_compute. reflexivity.
  - vm_compute. discriminate.
  - vm_compute. reflexivity.
  - intros j p Hj Hp. assert (j = 0%nat) as -> by lia.
    vm_compute in Hp. injection Hp as <-. vm_compute. reflexivity.
  - left. reflexivity.
Defined.

(** The result of the loop depends on the pairs, the flag, the window, the
    energy it starts with and the readings of the clock, and on nothing else
    in the state. *)
Lemma delta_loop_result (dt : Z) (early_break : bool)
    (pairs : list (snapshot * snapshot)) :
  ∀ (clk1 clk2 : nat → Z) (energy : Q) (w1 w2 : World),
  (∀ i, clk1 (ticks w1 + i)%nat = clk2 (ticks w2 + i)%nat) →
  (delta_loop clk1 dt early_break pairs energy w1).1
  = (delta_loop clk2 dt early_break pairs energy w2).1.
Proof.
  induction pairs as [|[[[dt2 st2] sy2] [[dt1 st1] sy1]] pairs IH];
    intros clk1 clk2 energy w1 w2 Hclk; [done|].
  simpl. unfold bind at 1 3, utcnow at 1 2. simpl.
  pose proof (Hclk 0%nat) as H0. rewrite !Nat.add_0_r in H0. rewrite H0.
  assert (∀ i, clk1 (ticks (set_ticks (S (ticks w1)) w1) + i)%nat
               = clk2 (ticks (set_ticks (S (ticks w2)) w2) + i)%nat) as Hnext.
  { intros i. simpl. specialize (Hclk (S i)).
    by replace (ticks w1 + S i)%nat with (S (ticks w1 + i)) in Hclk by lia;
       replace (ticks w2 + S i)%nat with (S (ticks w2 + i)) in Hclk by lia. }
  destruct (dt2 <=? clk2 (ticks w2) - dt); [done|].
  destruct (fgt st2 st1).
  { destruct early_break; [done|]. by apply IH. }
  destruct (fge sy2 st1).
  { destruct early_break; [done|]. by apply IH. }
  done.
Qed.

(** C9, as stated, fails on the history map: a query of a category that has
    no key yet adds the key, which the power accessors then observe. *)
Lemma delta_energy_consumption_changes_history_map :
  _energy_consumption_history
    (delta_energy_consumption (steady_clock noon) (timedelta_minutes 30) ATTR_TOTAL false
       init_world).2
  ≠ _energy_consumption_history init_world
  ∧ (current_total_power_consumption (steady_clock noon) init_world).1 = Ok None
  ∧ (current_total_power_consumption (steady_clock noon)
       (delta_energy_consumption (steady_clock noon) (timedelta_minutes 30) ATTR_TOTAL false
          init_world).2).1 = Ok (Some 0%Q).
Proof.
  split_and!.
  - intros H. apply (f_equal size) in H. vm_compute in H. discriminate.
  - vm_compute. reflexivity.
  - vm_compute. reflexivity.
Qed.

(** C9, amended. Two calls that find the same list for the mode, the same
    window, the same flag and the same clock readings return the same
    result; a call leaves the values and the list of every mode as they
    were, and the whole history map as it was when the mode already has a
    key. *)
Theorem delta_energy_consumption_deterministic (clk1 clk2 : nat → Z) (dt : Z)
    (mode : string) (early_break : bool) (w1 w2 : World) :
  history_of w1 mode = history_of w2 mode →
  (∀ i, clk1 (ticks w1 + i)%nat = clk2 (ticks w2 + i)%nat) →
  (delta_energy_consumption clk1 dt mode early_break w1).1
  = (delta_energy_consumption clk2 dt mode early_break w2).1
  ∧ (∀ m, history_of (delta_energy_consumption clk1 dt mode early_break w1).2 m
          = history_of w1 m)
  ∧ values (delta_energy_consumption clk1 dt mode early_break w1).2 = values w1
  ∧ (is_Some (_energy_consumption_history w1 !! mode) →
     _energy_consumption_history (delta_energy_consumption clk1 dt mode early_break w1).2
     = _energy_consumption_history w1).
Proof.
  intros Hh Hclk. split_and!.
  - unfold delta_energy_consumption, bind. rewrite !history_getitem_run, Hh.
    by apply delta_loop_result.
  - intros m. apply delta_energy_consumption_frame.
  - destruct (delta_energy_consumption_spec clk1 dt mode early_break w1)
      as (e & w' & Hrun & Hv & _). by rewrite Hrun.
  - intros [l Hl].
    destruct (delta_energy_consumption_spec clk1 dt mode early_break w1)
      as (e & w' & Hrun & _ & Hmap & _).
    rewrite Hrun. simpl. rewrite Hmap. unfold touched. by rewrite Hl.
Qed.

Lemma delta_energy_consumption_deterministic_witness :
  (delta_energy_consumption (steady_clock noon) (timedelta_minutes 30) ATTR_TOTAL false
     (with_history {[ATTR_TOTAL := growth_history]})).1
  = (delta_energy_consumption (steady_clock noon) (timedelta_minutes 30) ATTR_TOTAL false
       (delta_energy_consumption (steady_clock noon) (timedelta_minutes 30) ATTR_TOTAL false
          (with_history {[ATTR_TOTAL := growth_history]})).2).1.
Proof.
  apply (delta_energy_consumption_deterministic (steady_clock noon) (steady_clock noon)
           (timedelta_minutes 30) ATTR_TOTAL false
           (with_history {[ATTR_TOTAL := growth_history]})
           (delta_energy_consumption (steady_clock noon) (timedelta_minutes 30) ATTR_TOTAL
              false (with_history {[ATTR_TOTAL := growth_history]})).2).
  - vm_compute. reflexivity.
  - intros i. reflexivity.
Defined.

(** ** The power accessors *)

Lemma hour_over_half_hour :
  timedelta_truediv (timedelta_hours 1) (timedelta_minutes 30) = 2%Q.
Proof. reflexivity. Qed.

Lemma history_len_run (w : World) :
  history_len w = (Ok (size (_energy_consumption_history w)), w).
Proof. reflexivity. Qed.

Lemma delta_energy_consumption_rounded_map (rnd : Q → Q) (clk : nat → Z) (dt : Z)
    (mode : string) (early_break : bool) (w : World) :
  _energy_consumption_history
    (delta_energy_consumption_rounded rnd clk dt mode early_break w).2
  = touched mode (_energy_consumption_history w).
Proof.
  unfold delta_energy_consumption_rounded, bind. rewrite history_getitem_run.
  destruct (delta_loop_rounded_spec rnd clk dt early_break
              (consecutive (history_of w mode)) 0%Q
              (set_history (touched mode (_energy_consumption_history w)) w))
    as (w' & Hrun & _ & Hmap & _).
  by rewrite Hrun.
Qed.

Lemma touched_missing (mode : string) (h : gmap string (list snapshot)) :
  h !! mode = None → touched mode h = <[mode := []]> h.
Proof. intros Hnone. unfold touched. by rewrite Hnone. Qed.

(** C10, as stated, fails for the accessors: on a new appliance the history
    map has no key, every accessor returns [None] at its guard and leaves
    the map as it was, so the key of its mode is still missing. *)
Lemma accessors_insert_nothing_on_new_appliance :
  _energy_consumption_history init_world !! ATTR_TOTAL = None
  ∧ _energy_consumption_history init_world !! ATTR_COOL = None
  ∧ _energy_consumption_history init_world !! ATTR_HEAT = None
  ∧ current_total_power_consumption (steady_clock noon) init_world
    = (Ok None, init_world)
  ∧ last_hour_cool_power_consumption (steady_clock noon) init_world
    = (Ok None, init_world)
  ∧ last_hour_heat_power_consumption (steady_clock noon) init_world
    = (Ok None, init_world)
  ∧ _energy_consumption_history
      (current_total_power_consumption (steady_clock noon) init_world).2 !! ATTR_TOTAL
    = None
  ∧ _energy_consumption_history
      (last_hour_cool_power_consumption (steady_clock noon) init_world).2 !! ATTR_COOL
    = None
  ∧ _energy_consumption_history
      (last_hour_heat_power_consumption (steady_clock noon) init_world).2 !! ATTR_HEAT
    = None
  ∧ size (_energy_consumption_history
            (current_total_power_consumption (steady_clock noon) init_world).2) = 0%nat.
Proof. split_and!; reflexivity. Qed.

(** C10, amended. A call of [delta_energy_consumption] for a mode that has
    no key in the history map inserts the key with the empty list, whatever
    the arithmetic of the floats; the map then has one key more, so its
    length is not zero and the three accessors, which test the length of the
    map, return a number.  An accessor inserts the key of its own mode only
    when the map already has some key; on a map with no key it returns
    [None] and changes nothing. *)
Theorem delta_energy_consumption_inserts_key (clk : nat → Z) (dt : Z) (mode : string)
    (early_break : bool) (w : World) :
  _energy_consumption_history w !! mode = None →
  _energy_consumption_history (delta_energy_consumption clk dt mode early_break w).2
  = <[mode := []]> (_energy_consumption_history w)
  ∧ (∀ rnd : Q → Q,
       _energy_consumption_history
         (delta_energy_consumption_rounded rnd clk dt mode early_break w).2
       = <[mode := []]> (_energy_consumption_history w))
  ∧ size (_energy_consumption_history (delta_energy_consumption clk dt mode early_break w).2)
    = S (size (_energy_consumption_history w))
  ∧ (∃ q, (current_total_power_consumption clk
             (delta_energy_consumption clk dt mode early_break w).2).1 = Ok (Some q))
  ∧ (∃ q, (last_hour_cool_power_consumption clk
             (delta_energy_consumption clk dt mode early_break w).2).1 = Ok (Some q))
  ∧ (∃ q, (last_hour_heat_power_consumption clk
             (delta_energy_consumption clk dt mode early_break w).2).1 = Ok (Some q))
  ∧ (size (_energy_consumption_history w) ≠ 0%nat →
     (mode = ATTR_TOTAL →
      _energy_consumption_history (current_total_power_consumption clk w).2
      = <[mode := []]> (_energy_consumption_history w))
     ∧ (mode = ATTR_COOL →
        _energy_consumption_history (last_hour_cool_power_consumption clk w).2
        = <[mode := []]> (_energy_consumption_history w))
     ∧ (mode = ATTR_HEAT →
        _energy_consumption_history (last_hour_heat_power_consumption clk w).2
        = <[mode := []]> (_energy_consumption_history w)))
  ∧ (size (_energy_consumption_history w) = 0%nat →
     current_total_power_consumption clk w = (Ok None, w)
     ∧ last_hour_cool_power_consumption clk w = (Ok None, w)
     ∧ last_hour_heat_power_consumption clk w = (Ok None, w)).
Proof.
  intros Hnone.
  destruct (delta_energy_consumption_spec clk dt mode early_break w)
    as (e & w' & Hrun & _ & Hmap & _).
  rewrite Hrun. simpl. rewrite (touched_missing _ _ Hnone) in Hmap.
  assert (size (_energy_consumption_history w') ≠ 0%nat) as Hsize.
  { rewrite Hmap, map_size_insert_None by done. lia. }
  split_and!.
  - done.
  - intros rnd. rewrite delta_energy_consumption_rounded_map.
    by apply touched_missing.
  - rewrite Hmap. by apply map_size_insert_None.
  - unfold current_total_power_consumption, bind. rewrite history_len_run.
    apply Nat.eqb_neq in Hsize. rewrite Hsize.
    destruct (delta_energy_consumption_spec clk (timedelta_minutes 30) "total" false w')
      as (e1 & w1 & Hrun1 & _). rewrite Hrun1. by eexists.
  - unfold last_hour_cool_power_consumption, bind. rewrite history_len_run.
    apply Nat.eqb_neq in Hsize. rewrite Hsize.
    destruct (delta_energy_consumption_spec clk (timedelta_minutes 65) ATTR_COOL true w')
      as (e1 & w1 & Hrun1 & _). rewrite Hrun1. by eexists.
  - unfold last_hour_heat_power_consumption, bind. rewrite history_len_run.
    apply Nat.eqb_neq in Hsize. rewrite Hsize.
    destruct (delta_energy_consumption_spec clk (timedelta_minutes 65) ATTR_HEAT true w')
      as (e1 & w1 & Hrun1 & _). rewrite Hrun1. by eexists.
  - intros Hlen. apply Nat.eqb_neq in Hlen. split_and!; intros ->.
    + unfold current_total_power_consumption, bind. rewrite history_len_run, Hlen.
      destruct (delta_energy_consumption_spec clk (timedelta_minutes 30) "total" false w)
        as (e1 & w1 & Hrun1 & _ & Hmap1 & _). rewrite Hrun1. simpl.
      rewrite Hmap1. by apply touched_missing.
    + unfold last_hour_cool_power_consumption, bind. rewrite history_len_run, Hlen.
      destruct (delta_energy_consumption_spec clk (timedelta_minutes 65) ATTR_COOL true w)
        as (e1 & w1 & Hrun1 & _ & Hmap1 & _). rewrite Hrun1. simpl.
      rewrite Hmap1. by apply touched_missing.
    + unfold last_hour_heat_power_consumption, bind. rewrite history_len_run, Hlen.
      destruct (delta_energy_consumption_spec clk (timedelta_minutes 65) ATTR_HEAT true w)
        as (e1 & w1 & Hrun1 & _ & Hmap1 & _). rewrite Hrun1. simpl.
      rewrite Hmap1. by apply touched_missing.
  - intros Hlen. apply Nat.eqb_eq in Hlen.
    unfold current_total_power_consumption, last_hour_cool_power_consumption,
      last_hour_heat_power_consumption, bind.
    rewrite history_len_run, Hlen. done.
Qed.

Lemma delta_energy_consumption_inserts_key_witness :
  (_energy_consumption_history
     (delta_energy_consumption (steady_clock noon) (timedelta_minutes 30) ATTR_TOTAL false
        init_world).2
   = <[ATTR_TOTAL := []]> (_energy_consumption_history init_world)
   ∧ current_total_power_consumption (steady_clock noon) init_world
     = (Ok None, init_world))
  ∧ _energy_consumption_history
      (last_hour_cool_power_consumption (steady_clock noon)
         (with_history {[ATTR_TOTAL := growth_history]})).2
    = <[ATTR_COOL := []]> {[ATTR_TOTAL := growth_history]}
  ∧ _energy_consumption_history
      (last_hour_heat_power_consumption (steady_clock noon)
         (with_history {[ATTR_TOTAL := growth_history]})).2
    = <[ATTR_HEAT := []]> {[ATTR_TOTAL := growth_history]}.
Proof.
  split; [|split].
  - destruct (delta_energy_consumption_inserts_key (steady_clock noon)
                (timedelta_minutes 30) ATTR_TOTAL false init_world)
      as (Hmap & _ & _ & _ & _ & _ & _ & Hempty).
    + vm_compute. reflexivity.
    + split; [exact Hmap|]. apply Hempty. vm_compute. reflexivity.
  - destruct (delta_energy_consumption_inserts_key (steady_clock noon)
                (timedelta_minutes 65) ATTR_COOL true
                (with_history {[ATTR_TOTAL := growth_history]}))
      as (_ & _ & _ & _ & _ & _ & Hkey & _).
    + vm_compute. reflexivity.
    + apply Hkey; [|reflexivity]. vm_compute. discriminate.
  - destruct (delta_energy_consumption_inserts_key (steady_clock noon)
                (timedelta_minutes 65) ATTR_HEAT true
                (with_history {[ATTR_TOTAL := growth_history]}))
      as (_ & _ & _ & _ & _ & _ & Hkey & _).
    + vm_compute. reflexivity.
    + apply Hkey; [|reflexivity]. vm_compute. discriminate.
Defined.

(** C8, as stated, fails once the map has a key: with no snapshot recorded
    at all, [current_total_power_consumption] returns zero, not [None]. *)
Lemma current_total_power_consumption_zero_without_snapshot :
  (∀ mode, history_of (with_history {[ATTR_TOTAL := []]}) mode = [])
  ∧ with_history {[ATTR_TOTAL := []]}
    = (delta_energy_consumption (steady_clock noon) (timedelta_minutes 30) ATTR_TOTAL false
         init_world).2
  ∧ current_total_power_consumption (steady_clock noon) (with_history {[ATTR_TOTAL := []]})
    = (Ok (Some 0%Q), with_history {[ATTR_TOTAL := []]}).
Proof.
  split_and!.
  - intros mode. unfold history_of, with_history. simpl.
    destruct (decide (mode = ATTR_TOTAL)) as [->|Hne].
    + by rewrite lookup_singleton_eq.
    + by rewrite lookup_singleton_ne.
  - vm_compute. reflexivity.
  - vm_compute. reflexivity.
Qed.

(** C8, amended. When the history map has no key at all, each power
    accessor returns [None] and changes nothing; when the map has a key,
    [current_total_power_consumption] is the delta of the total mode over 30
    minutes times 2 and the last-hour accessors are the delta of their mode
    over 65 minutes with [early_break]. *)
Theorem current_total_power_consumption_spec (clk : nat → Z) (w : World) :
  (size (_energy_consumption_history w) = 0%nat →
   current_total_power_consumption clk w = (Ok None, w)
   ∧ last_hour_cool_power_consumption clk w = (Ok None, w)
   ∧ last_hour_heat_power_consumption clk w = (Ok None, w))
  ∧ (size (_energy_consumption_history w) ≠ 0%nat →
     (∃ e w', delta_energy_consumption clk (timedelta_minutes 30) ATTR_TOTAL false w
              = (Ok e, w')
              ∧ current_total_power_consumption clk w = (Ok (Some (fmul e 2%Q)), w'))
     ∧ (∃ e w', delta_energy_consumption clk (timedelta_minutes 65) ATTR_COOL true w
                = (Ok e, w')
                ∧ last_hour_cool_power_consumption clk w = (Ok (Some e), w'))
     ∧ (∃ e w', delta_energy_consumption clk (timedelta_minutes 65) ATTR_HEAT true w
                = (Ok e, w')
                ∧ last_hour_heat_power_consumption clk w = (Ok (Some e), w'))).
Proof.
  split.
  - intros Hz.
    unfold current_total_power_consumption, last_hour_cool_power_consumption,
      last_hour_heat_power_consumption, bind.
    rewrite history_len_run, Hz. done.
  - intros Hnz. apply Nat.eqb_neq in Hnz.
    unfold current_total_power_consumption, last_hour_cool_power_consumption,
      last_hour_heat_power_consumption, bind.
    rewrite history_len_run, Hnz. split_and!.
    + destruct (delta_energy_consumption_spec clk (timedelta_minutes 30) ATTR_TOTAL false w)
        as (e & w' & Hrun & _).
      exists e, w'. split; [done|].
      change "total"%string with ATTR_TOTAL. rewrite Hrun. done.
    + destruct (delta_energy_consumption_spec clk (timedelta_minutes 65) ATTR_COOL true w)
        as (e & w' & Hrun & _).
      exists e, w'. split; [done|]. rewrite Hrun. done.
    + destruct (delta_energy_consumption_spec clk (timedelta_minutes 65) ATTR_HEAT true w)
        as (e & w' & Hrun & _).
      exists e, w'. split; [done|]. rewrite Hrun. done.
Qed.

Lemma current_total_power_consumption_spec_witness :
  current_total_power_consumption (steady_clock noon) init_world = (Ok None, init_world)
  ∧ ∃ e w',
      delta_energy_consumption (steady_clock noon) (timedelta_minutes 30) ATTR_TOTAL false
        (with_history {[ATTR_TOTAL := growth_history]}) = (Ok e, w')
      ∧ current_total_power_consumption (steady_clock noon)
          (with_history {[ATTR_TOTAL := growth_history]}) = (Ok (Some (fmul e 2%Q)), w').
Proof.
  split.
  - apply (current_total_power_consumption_spec (steady_clock noon) init_world).
    vm_compute. reflexivity.
  - apply (current_total_power_consumption_spec (steady_clock noon)
             (with_history {[ATTR_TOTAL := growth_history]})).
    vm_compute. discriminate.
Defined.

(** ** The recorder [_register_energy_consumption_history] *)

Section Recorder.

Variable clk : nat → Z.

Lemma stale_indices_run (h : list snapshot) :
  ∀ (i : nat) (w : World),
  stale_indices clk i h w
  = (Ok (stale_from clk (ticks w) i h), set_ticks (ticks w + length h) w).
Proof.
  induction h as [|s h IH]; intros i w.
  - simpl. unfold ret. f_equal. destruct w. unfold set_ticks. simpl. f_equal. lia.
  - simpl. unfold bind at 1, utcnow at 1. unfold bind at 1.
    rewrite IH. simpl. unfold ret. f_equal.
    unfold set_ticks. simpl. f_equal. lia.
Qed.

Lemma stale_from_ge (h : list snapshot) :
  ∀ (k i : nat), Forall (λ j, (i <= j)%nat) (stale_from clk k i h).
Proof.
  induction h as [|s h IH]; intros k i; simpl; [constructor|].
  assert (Forall (λ j, (i <= j)%nat) (stale_from clk (S k) (S i) h)) as Hrest.
  { eapply Forall_impl; [apply IH|]. simpl. lia. }
  destruct (timestamp s <? _); [constructor; [lia|done]|done].
Qed.

Lemma fold_min_least (l : list nat) (i : nat) :
  Forall (λ j, (i <= j)%nat) l → fold_left Nat.min l i = i.
Proof.
  induction 1 as [|j l Hj _ IH]; simpl; [done|].
  by rewrite Nat.min_l.
Qed.

Lemma py_min_default_stale (h : list snapshot) :
  ∀ (k i : nat),
  py_min_default (stale_from clk k i h) (i + length h) = (i + first_stale clk k h)%nat.
Proof.
  induction h as [|s h IH]; intros k i; simpl; [done|].
  destruct (timestamp s <? _).
  - simpl. rewrite fold_min_least; [lia|].
    eapply Forall_impl; [apply (stale_from_ge h (S k) (S i))|]. simpl. lia.
  - replace (i + S (length h))%nat with (S i + length h)%nat by lia.
    rewrite IH. lia.
Qed.

Lemma prune_idx_first_stale (k : nat) (h : list snapshot) :
  prune_idx clk k h = S (first_stale clk k h).
Proof.
  unfold prune_idx. pose proof (py_min_default_stale h k 0) as H.
  simpl in H. rewrite H. lia.
Qed.

Lemma prune_history_run (mode : string) (l : list snapshot) (w : World) :
  _energy_consumption_history w !! mode = Some l →
  prune_history clk mode w
  = (Ok tt,
     mkWorld (values w)
       (<[mode := take (prune_idx clk (ticks w) l) l]> (_energy_consumption_history w))
       (ticks w + length l) (log w)).
Proof.
  intros Hl. unfold prune_history. unfold bind at 1. rewrite history_getitem_run.
  unfold history_of, touched. rewrite Hl. cbn [default].
  unfold bind at 1. rewrite stale_indices_run.
  unfold history_setitem, modify_world, prune_idx. destruct w. reflexivity.
Qed.

(** One pass of the loop body, case by case. *)
Lemma register_mode_run (mode : string) (w : World) :
  register_mode clk mode w
  = match today_energy_consumption (values w) mode with
    | Raise e => (Raise e, set_ticks (S (ticks w)) w)
    | Ok t =>
        match yesterday_energy_consumption (values w) mode with
        | Raise e => (Raise e, set_ticks (S (ticks w)) w)
        | Ok y =>
            if state_unchanged (clk (ticks w), t, y) (old_state_of (history_of w mode))
            then (Ok tt, set_ticks (S (ticks w)) w)
            else (Ok tt, inserted clk mode (clk (ticks w), t, y) w)
        end
    end.
Proof.
  unfold register_mode. unfold bind at 1, utcnow at 1.
  unfold bind at 1, on_values at 1. cbn [values set_ticks].
  destruct (today_energy_consumption (values w) mode) as [t|e]; [|done].
  unfold bind at 1, on_values at 1. cbn [values set_ticks].
  destruct (yesterday_energy_consumption (values w) mode) as [y|e]; [|done].
  unfold bind at 1. rewrite history_getitem_run.
  change (history_of (set_ticks (S (ticks w)) w) mode) with (history_of w mode).
  change (_energy_consumption_history (set_ticks (S (ticks w)) w))
    with (_energy_consumption_history w).
  destruct (state_unchanged _ _) eqn:Hsame.
  - unfold ret. f_equal. unfold touched, history_of in *.
    destruct (_energy_consumption_history w !! mode); [by destruct w|].
    simpl in Hsame. discriminate.
  - unfold bind at 1, history_setitem at 1, modify_world at 1.
    rewrite (prune_history_run mode ((clk (ticks w), t, y) :: history_of w mode)).
    2: { cbn [_energy_consumption_history set_history]. apply lookup_insert_eq. }
    unfold inserted. cbn. rewrite insert_insert_eq. f_equal. f_equal.
    unfold touched. destruct (_energy_consumption_history w !! mode); [done|].
    by rewrite insert_insert_eq.
Qed.

End Recorder.

(** ** Properties of the recorder *)

(** C3. The claim holds of no run with an unusable field: a field that is
    not numeric makes [_energy_consumption] return [None], which the caller
    subscripts, and a missing field has no [split]; either exception leaves
    the recorder, before the history is touched and before the remaining
    modes are visited. *)
Theorem record_raises_on_unusable_field :
  _register_energy_consumption_history (steady_clock noon)
    (set_values garbled_values init_world)
  = (Raise TypeError, set_ticks 1 (set_values garbled_values init_world))
  ∧ _register_energy_consumption_history (steady_clock noon)
      (set_values missing_values init_world)
    = (Raise AttributeError, set_ticks 1 (set_values missing_values init_world))
  ∧ _energy_consumption garbled_values "datas" = Ok None
  ∧ support_energy_consumption garbled_values = Ok true.
Proof.
  split_and!; vm_compute; reflexivity.
Qed.

Lemma subscript_last_snoc (l : list Z) (a b : Z) :
  subscript_last (Some (l ++ [a; b])) = Ok b.
Proof.
  unfold subscript_last.
  replace (l ++ [a; b]) with ((l ++ [a]) ++ [b]) by (by rewrite <- app_assoc).
  by rewrite last_snoc.
Qed.

Lemma subscript_before_last_snoc (l : list Z) (a b : Z) :
  subscript_before_last (Some (l ++ [a; b])) = Ok a.
Proof.
  unfold subscript_before_last. by rewrite rev_app_distr.
Qed.

Lemma int_truediv_correct (n : Z) (d : positive) : (int_truediv n d == n # d)%Q.
Proof. apply Qred_correct. Qed.

Lemma state_unchanged_spec (new_state : snapshot) (h : list snapshot) :
  state_unchanged new_state (old_state_of h) = true →
  ∃ s, head h = Some s
       ∧ (today s == today new_state)%Q
       ∧ (yesterday s == yesterday new_state)%Q.
Proof.
  destruct h as [|s h]; simpl; [discriminate|].
  unfold state_unchanged, feq. simpl.
  destruct (Qeq_bool (today new_state) (today s)) eqn:Ht; [|discriminate].
  intros Hy. apply Qeq_bool_iff in Ht, Hy.
  exists s. split_and!; [done|by symmetry..].
Qed.

Lemma prune_idx_pos (clk : nat → Z) (k : nat) (h : list snapshot) :
  ∃ n, prune_idx clk k h = S n.
Proof. rewrite prune_idx_first_stale. by eexists. Qed.

Lemma inserted_history (clk : nat → Z) (mode : string) (new_state : snapshot)
    (w : World) :
  history_of (inserted clk mode new_state w) mode
  = take (prune_idx clk (S (ticks w)) (new_state :: history_of w mode))
      (new_state :: history_of w mode).
Proof. unfold history_of at 1, inserted. simpl. by rewrite lookup_insert_eq. Qed.

Lemma inserted_head (clk : nat → Z) (mode : string) (new_state : snapshot)
    (w : World) :
  head (history_of (inserted clk mode new_state w) mode) = Some new_state.
Proof.
  rewrite inserted_history.
  destruct (prune_idx_pos clk (S (ticks w)) (new_state :: history_of w mode)) as [n ->].
  reflexivity.
Qed.

(** C7, as stated, fails on what is stored: the snapshot of the total mode
    holds the counters divided by 1000, not the raw integers. *)
Lemma total_history_not_raw :
  _energy_consumption reporting_values "datas" = Ok (Some [1000; 3000])
  ∧ history_of
      (_register_energy_consumption_history (steady_clock noon)
         (set_values reporting_values init_world)).2 ATTR_TOTAL
    = [(noon, 3%Q, 1%Q)]
  ∧ ¬ (3 == 3000)%Q
  ∧ ¬ (1 == 1000)%Q.
Proof.
  split_and!.
  - vm_compute. reflexivity.
  - vm_compute. reflexivity.
  - vm_compute. discriminate.
  - vm_compute. discriminate.
Qed.

(** C7, amended. For the total mode, today and yesterday are the last and
    the second-to-last element of the slash-delimited field [datas], each
    divided by 1000, and these divided values are what the newest snapshot of
    the history holds after the recorder has handled the mode. *)
Theorem total_history_stores_divided_values (clk : nat → Z) (w : World)
    (l : list Z) (a b : Z) :
  _energy_consumption (values w) "datas" = Ok (Some (l ++ [a; b])) →
  today_energy_consumption (values w) ATTR_TOTAL = Ok (int_truediv b 1000)
  ∧ yesterday_energy_consumption (values w) ATTR_TOTAL = Ok (int_truediv a 1000)
  ∧ ∃ (w' : World) (s : snapshot),
      register_mode clk ATTR_TOTAL w = (Ok tt, w')
      ∧ head (history_of w' ATTR_TOTAL) = Some s
      ∧ (today s == b # 1000)%Q
      ∧ (yesterday s == a # 1000)%Q.
Proof.
  intros Hdatas.
  assert (today_energy_consumption (values w) ATTR_TOTAL = Ok (int_truediv b 1000)) as Ht.
  { unfold today_energy_consumption.
    change (String.eqb ATTR_TOTAL ATTR_TOTAL) with true. cbv iota.
    rewrite Hdatas. unfold result_bind. by rewrite subscript_last_snoc. }
  assert (yesterday_energy_consumption (values w) ATTR_TOTAL = Ok (int_truediv a 1000)) as Hy.
  { unfold yesterday_energy_consumption.
    change (String.eqb ATTR_TOTAL ATTR_TOTAL) with true. cbv iota.
    rewrite Hdatas. unfold result_bind. by rewrite subscript_before_last_snoc. }
  split_and!; [done..|].
  rewrite register_mode_run, Ht, Hy.
  destruct (state_unchanged _ _) eqn:Hsame.
  - apply state_unchanged_spec in Hsame as (s & Hs & Hst & Hsy).
    exists (set_ticks (S (ticks w)) w), s. split_and!; [done|done|..].
    + rewrite Hst. apply int_truediv_correct.
    + rewrite Hsy. apply int_truediv_correct.
  - exists (inserted clk ATTR_TOTAL
              (clk (ticks w), int_truediv b 1000, int_truediv a 1000) w),
      (clk (ticks w), int_truediv b 1000, int_truediv a 1000).
    split_and!; [done|..].
    + apply inserted_head.
    + apply int_truediv_correct.
    + apply int_truediv_correct.
Qed.

Lemma total_history_stores_divided_values_witness :
  today_energy_consumption reporting_values ATTR_TOTAL = Ok (int_truediv 3000 1000)
  ∧ yesterday_energy_consumption reporting_values ATTR_TOTAL = Ok (int_truediv 1000 1000)
  ∧ ∃ (w' : World) (s : snapshot),
      register_mode (steady_clock noon) ATTR_TOTAL (set_values reporting_values init_world)
      = (Ok tt, w')
      ∧ head (history_of w' ATTR_TOTAL) = Some s
      ∧ (today s == 3000 # 1000)%Q
      ∧ (yesterday s == 1000 # 1000)%Q.
Proof.
  apply (total_history_stores_divided_values (steady_clock noon)
           (set_values reporting_values init_world) [] 1000 3000).
  vm_compute. reflexivity.
Defined.

(** *** Pruning *)

Lemma filter_fresh_all_stale (cutoff : Z) (h : list snapshot) :
  Forall (λ s, timestamp s < cutoff) h → List.filter (is_fresh cutoff) h = [].
Proof.
  induction 1 as [|s h Hs _ IH]; simpl; [done|].
  unfold is_fresh, is_stale at 1. apply Z.ltb_lt in Hs. by rewrite Hs.
Qed.

Lemma filter_stale_of_fresh (cutoff : Z) (h : list snapshot) :
  List.filter (is_stale cutoff) (List.filter (is_fresh cutoff) h) = [].
Proof.
  induction h as [|s h IH]; simpl; [done|].
  unfold is_fresh at 1. destruct (is_stale cutoff s) eqn:Hs; simpl; [done|].
  by rewrite Hs.
Qed.

Lemma filter_stale_take (cutoff : Z) (n : nat) (h : list snapshot) :
  List.filter (is_stale cutoff) (take n (List.filter (is_stale cutoff) h))
  = take n (List.filter (is_stale cutoff) h).
Proof.
  revert n. induction h as [|s h IH]; intros n; simpl; [by rewrite take_nil|].
  destruct (is_stale cutoff s) eqn:Hs; [|apply IH].
  destruct n as [|n]; simpl; [done|]. by rewrite Hs, IH.
Qed.

Lemma filter_fresh_all (cutoff : Z) (h : list snapshot) :
  (∀ s, s ∈ h → cutoff <= timestamp s) →
  List.filter (is_fresh cutoff) h = h ∧ List.filter (is_stale cutoff) h = [].
Proof.
  induction h as [|s h IH]; intros Hall; simpl; [done|].
  assert (is_stale cutoff s = false) as Hs.
  { apply Z.ltb_ge. apply Hall. constructor. }
  unfold is_fresh at 1. rewrite Hs. simpl.
  destruct IH as [-> ->]; [|done].
  intros s' Hs'. apply Hall. by constructor.
Qed.

Lemma first_stale_fresh_before (clk : nat → Z) (h : list snapshot) :
  ∀ (k i : nat) (s : snapshot),
  (i < first_stale clk k h)%nat → h !! i = Some s →
  clk (k + i)%nat - POWER_CONSUMPTION_MAX_HISTORY <= timestamp s.
Proof.
  induction h as [|s0 h IH]; intros k i s Hi Hs; [by rewrite lookup_nil in Hs|].
  cbn [first_stale] in Hi.
  destruct (timestamp s0 <? clk k - POWER_CONSUMPTION_MAX_HISTORY) eqn:Hstale; [lia|].
  apply Z.ltb_ge in Hstale. destruct i as [|i].
  - injection Hs as <-. by rewrite Nat.add_0_r.
  - replace (k + S i)%nat with (S k + i)%nat by lia. apply IH; [lia|done].
Qed.

(** On a newest-first list, under a clock that stands still, the pruning
    step keeps the entries at or after the cutoff and the newest of the
    entries older than it. *)
Lemma take_first_stale (clk : nat → Z) (cutoff : Z) (h : list snapshot) :
  ∀ k : nat,
  (∀ j, (j < length h)%nat → clk (k + j)%nat - POWER_CONSUMPTION_MAX_HISTORY = cutoff) →
  newest_first h →
  take (S (first_stale clk k h)) h
  = List.filter (is_fresh cutoff) h ++ take 1 (List.filter (is_stale cutoff) h).
Proof.
  induction h as [|s h IH]; intros k Hclk Hsorted; [done|].
  apply StronglySorted_inv in Hsorted as [Hsorted Hs].
  pose proof (Hclk 0%nat ltac:(simpl; lia)) as H0. rewrite Nat.add_0_r in H0.
  cbn [first_stale List.filter]. rewrite H0.
  unfold is_fresh at 1. unfold is_stale at 1 2.
  destruct (timestamp s <? cutoff) eqn:Hstale; cbn [negb].
  - apply Z.ltb_lt in Hstale.
    rewrite filter_fresh_all_stale; [done|].
    eapply Forall_impl; [exact Hs|]. simpl. lia.
  - cbn [take app]. f_equal. apply IH; [|done].
    intros j Hj. specialize (Hclk (S j) ltac:(simpl; lia)).
    by replace (k + S j)%nat with (S k + j)%nat in Hclk by lia.
Qed.

(** Under a clock that stands still while the recorder runs, the pruning
    step keeps every entry at or after the cutoff [observedAt - 3h] and, of
    the entries older than the cutoff, exactly the newest one when there is
    any; the history is not left empty, and it is kept whole when no entry
    is older than the cutoff. *)
Lemma register_mode_prunes_frozen (clk : nat → Z) (mode : string) (w : World) (t y : Q) :
  today_energy_consumption (values w) mode = Ok t →
  yesterday_energy_consumption (values w) mode = Ok y →
  state_unchanged (clk (ticks w), t, y) (old_state_of (history_of w mode)) = false →
  newest_first (history_of w mode) →
  frozen clk (ticks w) (S (length (history_of w mode))) →
  ∃ w' : World,
    register_mode clk mode w = (Ok tt, w')
    ∧ history_of w' mode
      = List.filter (is_fresh (clk (ticks w) - POWER_CONSUMPTION_MAX_HISTORY))
          ((clk (ticks w), t, y) :: history_of w mode)
        ++ take 1
             (List.filter (is_stale (clk (ticks w) - POWER_CONSUMPTION_MAX_HISTORY))
                ((clk (ticks w), t, y) :: history_of w mode))
    ∧ (∀ s, s ∈ (clk (ticks w), t, y) :: history_of w mode →
            clk (ticks w) - POWER_CONSUMPTION_MAX_HISTORY <= timestamp s →
            s ∈ history_of w' mode)
    ∧ List.filter (is_stale (clk (ticks w) - POWER_CONSUMPTION_MAX_HISTORY))
        (history_of w' mode)
      = take 1
          (List.filter (is_stale (clk (ticks w) - POWER_CONSUMPTION_MAX_HISTORY))
             ((clk (ticks w), t, y) :: history_of w mode))
    ∧ history_of w' mode ≠ []
    ∧ ((∀ s, s ∈ (clk (ticks w), t, y) :: history_of w mode →
             clk (ticks w) - POWER_CONSUMPTION_MAX_HISTORY <= timestamp s) →
       history_of w' mode = (clk (ticks w), t, y) :: history_of w mode).
Proof.
  intros Ht Hy Hnew Hsorted Hfrozen.
  set (cutoff := clk (ticks w) - POWER_CONSUMPTION_MAX_HISTORY).
  set (new_state := ((clk (ticks w), t, y) : snapshot)) in *.
  set (h := history_of w mode) in *.
  assert (is_stale cutoff new_state = false) as Hfresh.
  { unfold is_stale, new_state, timestamp, cutoff. simpl. apply Z.ltb_ge.
    unfold POWER_CONSUMPTION_MAX_HISTORY, timedelta_hours, microseconds_per_minute. lia. }
  assert (history_of (inserted clk mode new_state w) mode
          = List.filter (is_fresh cutoff) (new_state :: h)
            ++ take 1 (List.filter (is_stale cutoff) (new_state :: h))) as Hkept.
  { rewrite inserted_history, prune_idx_first_stale. fold h.
    cbn [first_stale List.filter].
    pose proof (Hfrozen 1%nat ltac:(lia)) as H1.
    replace (ticks w + 1)%nat with (S (ticks w)) in H1 by lia.
    unfold is_fresh at 1. rewrite Hfresh. cbn [negb].
    change (timestamp new_state) with (clk (ticks w)).
    rewrite H1. fold cutoff.
    change (clk (ticks w) <? cutoff) with (is_stale cutoff new_state). rewrite Hfresh.
    cbn [take app]. f_equal.
    apply take_first_stale; [|done].
    intros j Hj. unfold cutoff. f_equal.
    specialize (Hfrozen (S (S j)) ltac:(lia)).
    by replace (ticks w + S (S j))%nat with (S (S (ticks w)) + j)%nat in Hfrozen by lia. }
  exists (inserted clk mode new_state w).
  rewrite register_mode_run, Ht, Hy. fold new_state h. rewrite Hnew.
  split_and!.
  - done.
  - exact Hkept.
  - intros s Hs Hle. rewrite Hkept. apply elem_of_app. left.
    apply list_elem_of_In, filter_In. split; [by apply list_elem_of_In|].
    unfold is_fresh, is_stale. apply negb_true_iff. by apply Z.ltb_ge.
  - rewrite Hkept, List.filter_app, filter_stale_of_fresh, filter_stale_take. done.
  - rewrite Hkept. cbn [List.filter]. unfold is_fresh at 1. rewrite Hfresh. done.
  - intros Hall. rewrite Hkept.
    destruct (filter_fresh_all cutoff (new_state :: h) Hall) as [-> ->].
    by rewrite app_nil_r.
Qed.

(** *** Ordering *)

Section Ordering.

Variable clk : nat → Z.
Hypothesis clk_monotone : monotone clk.

Lemma monotone_le (n m : nat) : (n <= m)%nat → clk n <= clk m.
Proof.
  induction 1 as [|m _ IH]; [lia|].
  pose proof (clk_monotone m). lia.
Qed.

Lemma ordered_later (w w' : World) :
  _energy_consumption_history w' = _energy_consumption_history w →
  (ticks w <= ticks w')%nat →
  ordered clk w → ordered clk w'.
Proof.
  intros Hh Ht Hord mode h Hlook. rewrite Hh in Hlook.
  destruct (Hord mode h Hlook) as [Hsorted Hbound]. split; [done|].
  eapply Forall_impl; [exact Hbound|]. simpl. intros s Hs.
  pose proof (monotone_le _ _ Ht). lia.
Qed.

Lemma newest_first_take (n : nat) (h : list snapshot) :
  newest_first h → newest_first (take n h).
Proof.
  intros Hsorted. unfold newest_first in *.
  rewrite <- (take_drop n h) in Hsorted.
  by apply StronglySorted_app_1_l in Hsorted.
Qed.

Lemma ordered_history_of (w : World) (mode : string) :
  ordered clk w →
  newest_first (history_of w mode)
  ∧ Forall (λ s, timestamp s <= clk (ticks w)) (history_of w mode).
Proof.
  intros Hord. unfold history_of.
  destruct (_energy_consumption_history w !! mode) as [h|] eqn:Hlook.
  - by apply Hord in Hlook.
  - split; constructor.
Qed.

Lemma inserted_ordered (mode : string) (t y : Q) (w : World) :
  ordered clk w → ordered clk (inserted clk mode (clk (ticks w), t, y) w).
Proof.
  intros Hord m h. unfold inserted. cbn [_energy_consumption_history ticks].
  destruct (ordered_history_of w mode Hord) as [Hsorted Hbound].
  assert (clk (ticks w) <= clk (S (ticks w) + S (length (history_of w mode)))) as Hclk.
  { apply monotone_le. lia. }
  destruct (decide (mode = m)) as [<-|Hne].
  - rewrite lookup_insert_eq. intros [= <-]. split.
    + apply newest_first_take. apply SSorted_cons; [done|].
      eapply Forall_impl; [exact Hbound|]. done.
    + apply Forall_take. constructor; [done|].
      eapply Forall_impl; [exact Hbound|]. intros s Hs. cbv beta in *. lia.
  - rewrite lookup_insert_ne by done. intros Hlook.
    destruct (Hord m h Hlook) as [Hs Hb]. split; [done|].
    eapply Forall_impl; [exact Hb|]. intros s Hs'. cbv beta in *. lia.
Qed.

Lemma register_mode_ordered (mode : string) (w : World) :
  ordered clk w → ordered clk (register_mode clk mode w).2.
Proof.
  intros Hord. rewrite register_mode_run.
  assert (ordered clk (set_ticks (S (ticks w)) w)) as Htick.
  { apply (ordered_later w); [done|simpl; lia|done]. }
  destruct (today_energy_consumption _ _) as [t|e]; [|done].
  destruct (yesterday_energy_consumption _ _) as [y|e]; [|done].
  destruct (state_unchanged _ _); [done|].
  by apply inserted_ordered.
Qed.

Lemma for_modes_ordered (ms : list string) :
  ∀ w, ordered clk w → ordered clk (for_modes clk ms w).2.
Proof.
  induction ms as [|m ms IH]; intros w Hord; [done|].
  simpl. unfold bind.
  pose proof (register_mode_ordered m w Hord) as Hm.
  destruct (register_mode clk m w) as [[[]|e] w']; [|done].
  by apply IH.
Qed.

Lemma register_ordered (w : World) :
  ordered clk w → ordered clk (_register_energy_consumption_history clk w).2.
Proof.
  intros Hord. unfold _register_energy_consumption_history, bind, on_values.
  destruct (support_energy_consumption (values w)) as [[]|e];
    cbn [negb]; [|done..].
  by apply for_modes_ordered.
Qed.

Lemma update_values_run (fetched : list (gmap string string)) :
  ∀ w, update_values fetched w = (Ok tt, set_values (merged fetched (values w)) w).
Proof.
  induction fetched as [|r fetched IH]; intros w; [by destruct w|].
  simpl. unfold bind, modify_world. by rewrite IH.
Qed.

Lemma update_status_run (fetched : list (gmap string string)) (w : World) :
  update_status clk fetched w
  = _register_energy_consumption_history clk
      (set_values (merged fetched (values w)) w).
Proof. unfold update_status, bind. by rewrite update_values_run. Qed.

Lemma update_status_ordered (fetched : list (gmap string string)) (w : World) :
  ordered clk w → ordered clk (update_status clk fetched w).2.
Proof.
  intros Hord. rewrite update_status_run. apply register_ordered.
  by apply (ordered_later w).
Qed.

Lemma poll_ordered (fs : list (list (gmap string string))) :
  ∀ w, ordered clk w → ordered clk (poll clk fs w).
Proof.
  induction fs as [|f fs IH]; intros w Hord; [done|].
  simpl. apply IH. by apply update_status_ordered.
Qed.

End Ordering.

Lemma init_world_ordered (clk : nat → Z) : ordered clk init_world.
Proof. intros mode h Hlook. simpl in Hlook. by rewrite lookup_empty in Hlook. Qed.

Lemma newest_first_lookup (h : list snapshot) (i j : nat) (a b : snapshot) :
  newest_first h → (i <= j)%nat → h !! i = Some a → h !! j = Some b →
  timestamp b <= timestamp a.
Proof.
  intros Hsorted. revert i j. induction Hsorted as [|s h _ IH Hs]; intros i j Hij Ha Hb.
  { by rewrite lookup_nil in Ha. }
  destruct i as [|i], j as [|j]; simpl in *; try lia.
  - injection Ha as <-. injection Hb as <-. lia.
  - injection Ha as <-. rewrite Forall_forall in Hs.
    apply Hs. by apply list_elem_of_lookup_2 in Hb.
  - apply (IH i j); [lia|done..].
Qed.

(** *** Pruning under a clock that moves *)

Lemma first_stale_le (clk : nat → Z) (h : list snapshot) :
  ∀ k : nat, (first_stale clk k h <= length h)%nat.
Proof.
  induction h as [|s h IH]; intros k; cbn [first_stale length]; [lia|].
  destruct (timestamp s <? _); [lia|]. specialize (IH (S k)). lia.
Qed.

(** The entry at the index [first_stale] is older than the cutoff of its own
    reading. *)
Lemma first_stale_stale (clk : nat → Z) (h : list snapshot) :
  ∀ k : nat,
  (first_stale clk k h < length h)%nat →
  ∃ s : snapshot,
    h !! first_stale clk k h = Some s
    ∧ timestamp s < clk (k + first_stale clk k h)%nat - POWER_CONSUMPTION_MAX_HISTORY.
Proof.
  induction h as [|s0 h IH]; intros k Hlt; cbn [first_stale length] in *; [lia|].
  destruct (timestamp s0 <? clk k - POWER_CONSUMPTION_MAX_HISTORY) eqn:Hstale.
  - exists s0. split; [done|]. rewrite Nat.add_0_r. by apply Z.ltb_lt.
  - destruct (IH (S k)) as (s & Hs & Hold); [lia|].
    exists s. split; [done|].
    by replace (k + S (first_stale clk (S k) h))%nat
      with (S k + first_stale clk (S k) h)%nat by lia.
Qed.

Lemma first_stale_least (clk : nat → Z) (h : list snapshot) (k j : nat) (s : snapshot) :
  h !! j = Some s →
  timestamp s < clk (k + j)%nat - POWER_CONSUMPTION_MAX_HISTORY →
  (first_stale clk k h <= j)%nat.
Proof.
  intros Hs Hold. destruct (le_lt_dec (first_stale clk k h) j) as [|Hlt]; [done|].
  pose proof (first_stale_fresh_before clk h k j s Hlt Hs). lia.
Qed.

Lemma at_most_one_stale (cutoff : Z) (h : list snapshot) :
  (∀ (i : nat) (s : snapshot),
     h !! i = Some s → (S i < length h)%nat → cutoff <= timestamp s) →
  (length (List.filter (is_stale cutoff) h) <= 1)%nat.
Proof.
  induction h as [|s h IH]; intros Hfresh; [simpl; lia|].
  destruct h as [|s1 h].
  { simpl. destruct (is_stale cutoff s); simpl; lia. }
  cbn [List.filter].
  assert (is_stale cutoff s = false) as ->.
  { apply Z.ltb_ge. apply (Hfresh 0%nat s); [done|simpl; lia]. }
  apply IH. intros i s' Hs' Hi. apply (Hfresh (S i) s'); [done|simpl in *; lia].
Qed.

Lemma last_take_S (h : list snapshot) (i : nat) (s : snapshot) :
  h !! i = Some s → last (take (S i) h) = Some s.
Proof.
  revert i. induction h as [|a h IH]; intros i Hs; [by rewrite lookup_nil in Hs|].
  destruct i as [|i].
  - injection Hs as <-. reflexivity.
  - cbn [take]. specialize (IH i Hs).
    destruct (take (S i) h) as [|b l] eqn:Htake; [done|].
    by rewrite last_cons, IH.
Qed.

(** C4, as stated, fails when the clock moves while the recorder prunes:
    every entry is compared with a reading of its own.  With readings one
    microsecond apart, an entry one microsecond inside the horizon of
    [observedAt] is found stale and kept as the anchor, and the entry older
    than [observedAt - 3h] is dropped: no entry older than the cutoff is
    kept although there is one. *)
Lemma register_mode_drops_older_entry :
  monotone microsecond_clock
  ∧ newest_first (observed microsecond_clock ATTR_TOTAL 3%Q 1%Q edge_world)
  ∧ observed microsecond_clock ATTR_TOTAL 3%Q 1%Q edge_world
    = [(noon, 3%Q, 1%Q);
       (noon - timedelta_hours 3 + 1, 2%Q, 1%Q);
       (noon - timedelta_hours 4, 1%Q, 1%Q)]
  ∧ first_cutoff microsecond_clock edge_world = noon - timedelta_hours 3
  ∧ (register_mode microsecond_clock ATTR_TOTAL edge_world).1 = Ok tt
  ∧ history_of (register_mode microsecond_clock ATTR_TOTAL edge_world).2 ATTR_TOTAL
    = [(noon, 3%Q, 1%Q); (noon - timedelta_hours 3 + 1, 2%Q, 1%Q)]
  ∧ List.filter (is_stale (first_cutoff microsecond_clock edge_world))
      (observed microsecond_clock ATTR_TOTAL 3%Q 1%Q edge_world)
    = [(noon - timedelta_hours 4, 1%Q, 1%Q)]
  ∧ List.filter (is_stale (first_cutoff microsecond_clock edge_world))
      (history_of (register_mode microsecond_clock ATTR_TOTAL edge_world).2 ATTR_TOTAL)
    = [].
Proof.
  split_and!.
  - intros n. unfold microsecond_clock. lia.
  - repeat constructor; vm_compute; discriminate.
  - vm_compute. reflexivity.
  - vm_compute. reflexivity.
  - vm_compute. reflexivity.
  - vm_compute. reflexivity.
  - vm_compute. reflexivity.
  - vm_compute. reflexivity.
Qed.

(** C4, amended. Under a clock that never goes back, when the recorder
    inserts a snapshot observed at [observedAt] into a newest-first history,
    the pruning step compares each entry with a clock reading of its own and
    keeps the list up to the first entry it finds stale.  Every entry at or
    after the cutoff of the last reading is kept; every kept entry but the
    last is at or after [observedAt - 3h], so at most one kept entry is
    older than that cutoff; the history is not left empty, and it is kept
    whole when no entry is older than the cutoff of the last reading.  When
    some entry is older than [observedAt - 3h], the kept list ends with an
    anchor older than the cutoff of the last reading and at least as new as
    every entry older than [observedAt - 3h].  When the clock stands still
    during the call, the kept list is the entries at or after
    [observedAt - 3h] followed by the newest entry older than it, if any. *)
Theorem register_mode_prunes (clk : nat → Z) (mode : string) (w : World) (t y : Q) :
  monotone clk →
  today_energy_consumption (values w) mode = Ok t →
  yesterday_energy_consumption (values w) mode = Ok y →
  state_unchanged (clk (ticks w), t, y) (old_state_of (history_of w mode)) = false →
  newest_first (observed clk mode t y w) →
  ∃ w' : World,
    register_mode clk mode w = (Ok tt, w')
    ∧ history_of w' mode
      = take (S (first_stale clk (S (ticks w)) (observed clk mode t y w)))
          (observed clk mode t y w)
    ∧ (∀ s, s ∈ observed clk mode t y w →
            last_cutoff clk mode w <= timestamp s →
            s ∈ history_of w' mode)
    ∧ (∀ (i : nat) (s : snapshot),
         history_of w' mode !! i = Some s →
         (S i < length (history_of w' mode))%nat →
         first_cutoff clk w <= timestamp s)
    ∧ (length (List.filter (is_stale (first_cutoff clk w)) (history_of w' mode)) <= 1)%nat
    ∧ history_of w' mode ≠ []
    ∧ ((∀ s, s ∈ observed clk mode t y w → last_cutoff clk mode w <= timestamp s) →
       history_of w' mode = observed clk mode t y w)
    ∧ ((∃ s, s ∈ observed clk mode t y w ∧ timestamp s < first_cutoff clk w) →
       ∃ anchor : snapshot,
         last (history_of w' mode) = Some anchor
         ∧ timestamp anchor < last_cutoff clk mode w
         ∧ ∀ s, s ∈ observed clk mode t y w →
                timestamp s < first_cutoff clk w →
                timestamp s <= timestamp anchor)
    ∧ (frozen clk (ticks w) (S (length (history_of w mode))) →
       history_of w' mode
       = List.filter (is_fresh (first_cutoff clk w)) (observed clk mode t y w)
         ++ take 1 (List.filter (is_stale (first_cutoff clk w))
                      (observed clk mode t y w))
       ∧ List.filter (is_stale (first_cutoff clk w)) (history_of w' mode)
         = take 1 (List.filter (is_stale (first_cutoff clk w))
                     (observed clk mode t y w))).
Proof.
  intros Hmono Ht Hy Hnew Hsorted.
  set (l := observed clk mode t y w) in *.
  set (i0 := first_stale clk (S (ticks w)) l).
  assert (length l = S (length (history_of w mode))) as Hlen by done.
  assert (∀ n m : nat, (n <= m)%nat → clk n <= clk m) as Hle.
  { intros n m. by apply monotone_le. }
  assert (history_of (inserted clk mode (clk (ticks w), t, y) w) mode = take (S i0) l)
    as Hkept.
  { by rewrite inserted_history, prune_idx_first_stale. }
  (* an entry below the cutoff of its own reading bounds [i0] *)
  assert (∀ j s, l !! j = Some s →
                 timestamp s < clk (S (ticks w) + j)%nat - POWER_CONSUMPTION_MAX_HISTORY →
                 (i0 <= j)%nat) as Hleast.
  { intros j s. apply first_stale_least. }
  assert ((i0 < length l)%nat →
          ∃ a : snapshot, l !! i0 = Some a
            ∧ timestamp a < last_cutoff clk mode w) as Hanchor.
  { intros Hi0. destruct (first_stale_stale clk l (S (ticks w)) Hi0) as (a & Ha & Hold).
    exists a. split; [done|]. unfold last_cutoff. fold i0 in Hold.
    pose proof (Hle (S (ticks w) + i0)%nat
                  (S (ticks w) + length (history_of w mode))%nat ltac:(lia)). lia. }
  exists (inserted clk mode (clk (ticks w), t, y) w).
  rewrite register_mode_run, Ht, Hy, Hnew.
  split_and!.
  - done.
  - exact Hkept.
  - intros s Hs Hfresh. rewrite Hkept.
    apply list_elem_of_lookup in Hs as [j Hj].
    apply list_elem_of_lookup. exists j.
    destruct (le_lt_dec j i0) as [Hji|Hij].
    { rewrite lookup_take_lt by lia. done. }
    exfalso. apply lookup_lt_Some in Hj as Hjlen.
    destruct Hanchor as (a & Ha & Hold); [lia|].
    pose proof (newest_first_lookup l i0 j a s Hsorted ltac:(lia) Ha Hj). lia.
  - intros i s. rewrite Hkept. intros Hs Hi. rewrite length_take in Hi.
    apply lookup_take_Some in Hs as [Hs _].
    apply Nat.min_glb_lt_iff in Hi as [Hbefore%Nat.succ_lt_mono _].
    pose proof (first_stale_fresh_before clk _ (S (ticks w)) i s Hbefore Hs) as Hfresh.
    pose proof (Hle (ticks w) (S (ticks w) + i)%nat ltac:(lia)).
    unfold first_cutoff. lia.
  - apply at_most_one_stale. intros i s. rewrite Hkept. intros Hs Hi.
    rewrite length_take in Hi.
    apply lookup_take_Some in Hs as [Hs _].
    apply Nat.min_glb_lt_iff in Hi as [Hbefore%Nat.succ_lt_mono _].
    pose proof (first_stale_fresh_before clk _ (S (ticks w)) i s Hbefore Hs) as Hfresh.
    pose proof (Hle (ticks w) (S (ticks w) + i)%nat ltac:(lia)).
    unfold first_cutoff. lia.
  - rewrite Hkept. done.
  - intros Hall. rewrite Hkept. apply take_ge.
    destruct (le_lt_dec (length l) i0) as [|Hi0]; [lia|].
    exfalso. destruct (Hanchor Hi0) as (a & Ha & Hold).
    pose proof (Hall a (list_elem_of_lookup_2 _ _ _ Ha)). lia.
  - intros (s & Hs & Hold).
    apply list_elem_of_lookup in Hs as [j Hj].
    apply lookup_lt_Some in Hj as Hjlen.
    assert (i0 <= j)%nat as Hij.
    { apply (Hleast j s Hj).
      pose proof (Hle (ticks w) (S (ticks w) + j)%nat ltac:(lia)).
      unfold first_cutoff in Hold. lia. }
    destruct Hanchor as (a & Ha & Holda); [lia|].
    exists a. split_and!.
    + rewrite Hkept. by apply last_take_S.
    + done.
    + intros s' Hs' Hold'.
      apply list_elem_of_lookup in Hs' as [j' Hj'].
      assert (i0 <= j')%nat as Hij'.
      { apply (Hleast j' s' Hj').
        pose proof (Hle (ticks w) (S (ticks w) + j')%nat ltac:(lia)).
        unfold first_cutoff in Hold'. lia. }
      exact (newest_first_lookup l i0 j' a s' Hsorted Hij' Ha Hj').
  - intros Hfrozen.
    apply StronglySorted_inv in Hsorted as [Hsorted _].
    destruct (register_mode_prunes_frozen clk mode w t y Ht Hy Hnew Hsorted Hfrozen)
      as (w'' & Hrun & Hlist & _ & Hstale & _).
    rewrite register_mode_run, Ht, Hy, Hnew in Hrun.
    injection Hrun as <-. split; [exact Hlist|exact Hstale].
Qed.

Lemma register_mode_prunes_witness :
  ∃ w' : World,
    register_mode microsecond_clock ATTR_TOTAL edge_world = (Ok tt, w')
    ∧ history_of w' ATTR_TOTAL
      = [(noon, 3%Q, 1%Q); (noon - timedelta_hours 3 + 1, 2%Q, 1%Q)]
    ∧ (length (List.filter (is_stale (first_cutoff microsecond_clock edge_world))
                 (history_of w' ATTR_TOTAL)) <= 1)%nat
    ∧ ∃ anchor : snapshot,
        last (history_of w' ATTR_TOTAL) = Some anchor
        ∧ timestamp anchor < last_cutoff microsecond_clock ATTR_TOTAL edge_world.
Proof.
  destruct (register_mode_prunes microsecond_clock ATTR_TOTAL edge_world 3%Q 1%Q)
    as (w' & Hrun & Hkept & _ & _ & Hone & _ & _ & Hanchor & _).
  - intros n. unfold microsecond_clock. lia.
  - vm_compute. reflexivity.
  - vm_compute. reflexivity.
  - vm_compute. reflexivity.
  - repeat constructor; vm_compute; discriminate.
  - exists w'. split_and!.
    + exact Hrun.
    + rewrite Hkept. vm_compute. reflexivity.
    + exact Hone.
    + destruct Hanchor as (anchor & Hlast & Hold & _).
      * exists (noon - timedelta_hours 4, 1%Q, 1%Q). split.
        -- apply list_elem_of_lookup. exists 2%nat. vm_compute. reflexivity.
        -- vm_compute. reflexivity.
      * by exists anchor.
Defined.

(** C6. Under a clock that never goes back, every record call keeps the
    histories newest first, and so does any sequence of refreshes of a new
    appliance: the timestamps do not increase with the index. *)
Theorem recorder_keeps_newest_first (clk : nat → Z) :
  monotone clk →
  (∀ w, ordered clk w →
        ordered clk (_register_energy_consumption_history clk w).2)
  ∧ (∀ fs mode h,
       _energy_consumption_history (poll clk fs init_world) !! mode = Some h →
       newest_first h)
  ∧ (∀ fs mode h (i j : nat) (a b : snapshot),
       _energy_consumption_history (poll clk fs init_world) !! mode = Some h →
       (i <= j)%nat → h !! i = Some a → h !! j = Some b →
       timestamp b <= timestamp a).
Proof.
  intros Hmono.
  assert (∀ fs mode h,
            _energy_consumption_history (poll clk fs init_world) !! mode = Some h →
            newest_first h) as Hpoll.
  { intros fs mode h Hlook.
    pose proof (poll_ordered clk Hmono fs init_world (init_world_ordered clk)) as Hord.
    by destruct (Hord mode h Hlook). }
  split_and!.
  - intros w. by apply register_ordered.
  - exact Hpoll.
  - intros fs mode h i j a b Hlook. apply newest_first_lookup. by eapply Hpoll.
Qed.


Lemma recorder_keeps_newest_first_witness :
  timestamp (noon, 3%Q, 1%Q)
  <= timestamp (noon + 6 * microseconds_per_minute, (1 # 2)%Q, 3%Q).
Proof.
  destruct (recorder_keeps_newest_first ticking_clock) as (_ & _ & H).
  - intros n. unfold ticking_clock, microseconds_per_minute. lia.
  - apply (H [[reporting_values]; [next_day_values]] ATTR_TOTAL
             [(noon + 6 * microseconds_per_minute, (1 # 2)%Q, 3%Q); (noon, 3%Q, 1%Q)]
             0%nat 1%nat).
    + vm_compute. reflexivity.
    + lia.
    + reflexivity.
    + reflexivity.
Defined.

(** *** Deduplication *)


Section Dedup.

Variable clk : nat → Z.
Variables t y : string → Q.








End Dedup.



(** ** Further properties: the raw fields *)

Lemma split_slash_split_char (s : string) : split_slash s = split_char "/" s.
Proof. induction s as [|c s IH]; simpl; [done|]. by rewrite IH. Qed.

Lemma split_char_nonempty (sep : ascii) (s : string) : split_char sep s ≠ [].
Proof.
  destruct s as [|c s]; simpl; [done|].
  destruct (Ascii.eqb c sep); [done|]. by destruct (split_char sep s).
Qed.

Lemma join_cons (sep x : string) (l : list string) :
  l ≠ [] → join sep (x :: l) = x +:+ sep +:+ join sep l.
Proof. by destruct l. Qed.

Lemma join_split_char (sep : ascii) (s : string) :
  join (String sep EmptyString) (split_char sep s) = s.
Proof.
  induction s as [|c s IH]; [done|].
  cbn [split_char]. destruct (Ascii.eqb c sep) eqn:Hc.
  - apply Ascii.eqb_eq in Hc as ->.
    rewrite join_cons by apply split_char_nonempty. by rewrite IH.
  - pose proof (split_char_nonempty sep s) as Hne.
    destruct (split_char sep s) as [|w ws]; [done|].
    destruct ws as [|w' ws]; simpl in *; by rewrite <- IH.
Qed.

Lemma split_char_no_sep (sep : ascii) (s : string) :
  has_char sep s = false → split_char sep s = [s].
Proof.
  induction s as [|c s IH]; [done|]. simpl.
  destruct (Ascii.eqb c sep); [done|]. simpl. intros Hs. by rewrite IH.
Qed.

Lemma split_char_app (sep : ascii) (a b : string) :
  has_char sep a = false →
  split_char sep (a +:+ String sep b) = a :: split_char sep b.
Proof.
  induction a as [|c a IH]; simpl.
  - intros _. by rewrite Ascii.eqb_refl.
  - destruct (Ascii.eqb c sep); [done|]. simpl. intros Ha. by rewrite IH.
Qed.

Lemma split_char_join (sep : ascii) (fields : list string) :
  fields ≠ [] →
  Forall (λ f, has_char sep f = false) fields →
  split_char sep (join (String sep EmptyString) fields) = fields.
Proof.
  intros Hne Hall. induction Hall as [|f fields Hf Hall IH]; [done|].
  destruct fields as [|g fields].
  - simpl. by apply split_char_no_sep.
  - rewrite join_cons by done.
    change (f +:+ String sep EmptyString +:+ join (String sep EmptyString) (g :: fields))
      with (f +:+ String sep (join (String sep EmptyString) (g :: fields))).
    rewrite split_char_app by done. by rewrite IH.
Qed.

Lemma split_char_snoc (sep : ascii) (s : string) :
  split_char sep (s +:+ String sep EmptyString) = split_char sep s ++ [EmptyString].
Proof.
  induction s as [|c s IH]; simpl.
  - by rewrite Ascii.eqb_refl.
  - destruct (Ascii.eqb c sep); [by rewrite IH|].
    rewrite IH. pose proof (split_char_nonempty sep s).
    by destruct (split_char sep s).
Qed.

Lemma ints_none (l : list string) (f : string) :
  f ∈ l → py_int f = None → ints l = None.
Proof.
  induction 1 as [f l|f g l _ IH]; intros Hf; simpl.
  - by rewrite Hf.
  - rewrite (IH Hf). by destruct (py_int g).
Qed.

Lemma pretty_N_char_digit (m : N) :
  (m < 10)%N →
  is_digit (pretty_N_char m) = true ∧ digit_value (pretty_N_char m) = Z.of_N m.
Proof.
  intros Hm.
  assert (m = 0 ∨ m = 1 ∨ m = 2 ∨ m = 3 ∨ m = 4 ∨ m = 5 ∨ m = 6 ∨ m = 7 ∨ m = 8 ∨ m = 9)%N
    as Hcases by lia.
  repeat (destruct Hcases as [->|Hcases]; [by vm_compute|]). subst m. by vm_compute.
Qed.

(** Reading back the digits that [pretty] writes. *)
Lemma int_digits_pretty_N_go (x : N) :
  (0 < x)%N →
  ∀ s, int_digits (pretty_N_go x s) 0 false = int_digits s (Z.of_N x) true.
Proof.
  induction (N.lt_wf_0 x) as [x _ IH]; intros Hx s.
  rewrite pretty_N_go_step by done.
  destruct (pretty_N_char_digit (x `mod` 10)) as [Hdigit Hvalue].
  { by apply N.mod_lt. }
  destruct (N.eq_0_gt_0_cases (x `div` 10)) as [Hsmall|Hbig].
  - rewrite Hsmall, pretty_N_go_0. cbn [int_digits]. rewrite Hdigit, Hvalue.
    f_equal. pose proof (N.div_mod x 10 ltac:(done)). lia.
  - rewrite IH; [|by apply N.div_lt|done].
    cbn [int_digits]. rewrite Hdigit, Hvalue.
    f_equal. pose proof (N.div_mod x 10 ltac:(done)). lia.
Qed.

Lemma pretty_N_go_head (x : N) :
  (0 < x)%N →
  ∀ s, ∃ c r, pretty_N_go x s = String c r ∧ is_digit c = true.
Proof.
  induction (N.lt_wf_0 x) as [x _ IH]; intros Hx s.
  rewrite pretty_N_go_step by done.
  destruct (N.eq_0_gt_0_cases (x `div` 10)) as [Hsmall|Hbig].
  - rewrite Hsmall, pretty_N_go_0. eexists _, _. split; [done|].
    apply pretty_N_char_digit. by apply N.mod_lt.
  - apply IH; [by apply N.div_lt|done].
Qed.

Lemma py_int_digit_head (c : ascii) (r : string) :
  is_digit c = true → py_int (String c r) = int_digits (String c r) 0 false.
Proof.
  intros Hc. unfold py_int. cbn [lstrip].
  assert (is_space c = false) as ->.
  { destruct c as [[] [] [] [] [] [] [] []]; by vm_compute in Hc |- *. }
  destruct c as [[] [] [] [] [] [] [] []]; try done; by vm_compute in Hc.
Qed.

Lemma py_int_pretty_N (x : N) : (0 < x)%N → py_int (pretty x) = Some (Z.of_N x).
Proof.
  intros Hx. unfold pretty, pretty_N. rewrite decide_False by lia.
  destruct (pretty_N_go_head x Hx "") as (c & r & Hhead & Hc).
  rewrite Hhead, py_int_digit_head by done. rewrite <- Hhead.
  by rewrite int_digits_pretty_N_go.
Qed.

(** [int] reads any integer back from its decimal numeral. *)
Lemma py_int_pretty (z : Z) : py_int (pretty z) = Some z.
Proof.
  destruct z as [|p|p]; [done|..].
  - change (pretty (Z.pos p)) with (pretty (N.pos p)). by rewrite py_int_pretty_N.
  - change (pretty (Z.neg p)) with (String "-" (pretty (N.pos p))).
    change (py_int (String "-" (pretty (N.pos p))))
      with (Z.opp <$> int_digits (pretty (N.pos p)) 0 false).
    unfold pretty, pretty_N. rewrite decide_False by lia.
    by rewrite int_digits_pretty_N_go.
Qed.

Lemma has_char_pretty_N_go (c : ascii) (x : N) :
  is_digit c = false →
  ∀ s, has_char c (pretty_N_go x s) = has_char c s.
Proof.
  intros Hc. induction (N.lt_wf_0 x) as [x _ IH]; intros s.
  destruct (N.eq_0_gt_0_cases x) as [->|Hx]; [by rewrite pretty_N_go_0|].
  rewrite pretty_N_go_step by done. rewrite IH by (by apply N.div_lt).
  cbn [has_char].
  destruct (pretty_N_char_digit (x `mod` 10)) as [Hdigit _]; [by apply N.mod_lt|].
  destruct (Ascii.eqb _ c) eqn:Heq; [|done].
  apply Ascii.eqb_eq in Heq. congruence.
Qed.

Lemma has_char_pretty (c : ascii) (z : Z) :
  is_digit c = false → c ≠ "-"%char → has_char c (pretty z) = false.
Proof.
  intros Hdigit Hdash.
  assert (∀ p, has_char c (pretty (N.pos p)) = false) as Hpos.
  { intros p. unfold pretty, pretty_N. rewrite decide_False by lia.
    by rewrite has_char_pretty_N_go. }
  destruct z as [|p|p].
  - change (pretty 0) with "0"%string. cbn [has_char].
    destruct (Ascii.eqb "0" c) eqn:Heq; [|done].
    apply Ascii.eqb_eq in Heq. subst c. by vm_compute in Hdigit.
  - apply Hpos.
  - change (pretty (Z.neg p)) with (String "-" (pretty (N.pos p))).
    cbn [has_char]. rewrite Hpos.
    destruct (Ascii.eqb "-" c) eqn:Heq; [|done].
    apply Ascii.eqb_eq in Heq. by subst c.
Qed.

Lemma ints_pretty (l : list Z) : ints (map pretty l) = Some l.
Proof.
  induction l as [|z l IH]; [done|].
  cbn [map ints]. by rewrite py_int_pretty, IH.
Qed.

(** X1. A field that holds the decimal numerals of a non-empty list of
    integers, joined by slashes, is read back as that list. *)
Theorem _energy_consumption_reads_numerals (values : gmap string string)
    (dimension : string) (l : list Z) :
  l ≠ [] →
  values !! dimension = Some (join "/" (map pretty l)) →
  _energy_consumption values dimension = Ok (Some l).
Proof.
  intros Hne Hfield. unfold _energy_consumption. rewrite Hfield.
  rewrite split_slash_split_char, split_char_join.
  - by rewrite ints_pretty.
  - by destruct l.
  - apply Forall_map, Forall_forall. intros z _. by apply has_char_pretty.
Qed.

Lemma _energy_consumption_reads_numerals_witness :
  _energy_consumption {["datas" := "1000/-3000/0"%string]} "datas"
  = Ok (Some [1000; -3000; 0]).
Proof.
  apply (_energy_consumption_reads_numerals _ "datas" [1000; -3000; 0]).
  - discriminate.
  - vm_compute. reflexivity.
Defined.

(** X2. An empty field, a field that ends with a slash and a field that
    starts with one hold an empty element, which is no integer: the field
    reads as [None], and the counters computed from it raise [TypeError]. *)
Theorem _energy_consumption_empty_element (values : gmap string string)
    (dimension raw : string) :
  values !! dimension = Some raw →
  raw = EmptyString ∨ (∃ s, raw = s +:+ "/") ∨ (∃ s, raw = "/" +:+ s) →
  _energy_consumption values dimension = Ok None
  ∧ (dimension = "datas"%string →
     today_energy_consumption values ATTR_TOTAL = Raise TypeError
     ∧ yesterday_energy_consumption values ATTR_TOTAL = Raise TypeError)
  ∧ (dimension = "curr_day_cool"%string →
     today_energy_consumption values ATTR_COOL = Raise TypeError).
Proof.
  intros Hfield Hraw.
  assert (_energy_consumption values dimension = Ok None) as Hnone.
  { unfold _energy_consumption. rewrite Hfield.
    rewrite (ints_none (split_slash raw) EmptyString); [done| |done].
    rewrite split_slash_split_char.
    destruct Hraw as [->|[[s ->]|[s ->]]].
    - by left.
    - rewrite split_char_snoc. apply elem_of_app. right. by left.
    - simpl. by left. }
  split_and!; [done|..].
  - intros ->. unfold today_energy_consumption, yesterday_energy_consumption.
    change (String.eqb ATTR_TOTAL ATTR_TOTAL) with true. cbv iota.
    by rewrite Hnone.
  - intros ->. unfold today_energy_consumption.
    change (String.eqb ATTR_COOL ATTR_TOTAL) with false.
    change (String.eqb ATTR_COOL ATTR_COOL) with true. cbv iota.
    by rewrite Hnone.
Qed.

Lemma _energy_consumption_empty_element_witness :
  _energy_consumption trailing_slash_values "datas" = Ok None
  ∧ today_energy_consumption trailing_slash_values ATTR_TOTAL = Raise TypeError.
Proof.
  destruct (_energy_consumption_empty_element trailing_slash_values "datas" "10/20/")
    as (Hnone & Htotal & _).
  - vm_compute. reflexivity.
  - right. left. by exists "10/20"%string.
  - split; [exact Hnone|]. by apply Htotal.
Defined.

(** ** Further properties: the recorder *)

Lemma support_without_yearly_fields (values : gmap string string) :
  values !! "previous_year" = None →
  values !! "this_year" = None →
  support_energy_consumption values = Ok false.
Proof.
  intros Hprev Hthis. unfold support_energy_consumption, get_or_zero.
  by rewrite Hprev, Hthis.
Qed.

Lemma merged_lookup_none (key : string) (fetched : list (gmap string string)) :
  ∀ v : gmap string string,
  Forall (λ r : gmap string string, r !! key = None) fetched →
  v !! key = None →
  merged fetched v !! key = None.
Proof.
  induction fetched as [|r fetched IH]; intros v Hall Hv; [done|].
  apply Forall_cons in Hall as [Hr Hall].
  cbn [merged fold_left]. apply (IH (r ∪ v)); [done|].
  apply lookup_union_None. done.
Qed.

(** X3. A device whose answers never hold the yearly counters
    [previous_year] and [this_year] is not recorded: after any sequence of
    refreshes of a new appliance the history map is still empty and the
    clock has not been read. *)
Theorem unsupported_device_is_never_recorded (clk : nat → Z)
    (fs : list (list (gmap string string))) :
  Forall (Forall (λ r : gmap string string,
                    r !! "previous_year" = None ∧ r !! "this_year" = None)) fs →
  _energy_consumption_history (poll clk fs init_world) = ∅
  ∧ ticks (poll clk fs init_world) = 0%nat
  ∧ log (poll clk fs init_world) = [].
Proof.
  intros Hfs.
  assert (∀ w : World,
            values w !! "previous_year" = None → values w !! "this_year" = None →
            _energy_consumption_history w = ∅ → ticks w = 0%nat → log w = [] →
            _energy_consumption_history (poll clk fs w) = ∅
            ∧ ticks (poll clk fs w) = 0%nat ∧ log (poll clk fs w) = []) as Hgen.
  { induction Hfs as [|f fs Hf _ IH]; intros w Hprev Hthis Hh Ht Hl; [done|].
    cbn [poll]. rewrite update_status_run.
    assert (merged f (values w) !! "previous_year" = None) as Hprev'.
    { apply merged_lookup_none; [|done]. eapply Forall_impl; [exact Hf|]. by intros r []. }
    assert (merged f (values w) !! "this_year" = None) as Hthis'.
    { apply merged_lookup_none; [|done]. eapply Forall_impl; [exact Hf|]. by intros r []. }
    unfold _register_energy_consumption_history, bind, on_values.
    cbn [values set_values].
    rewrite (support_without_yearly_fields _ Hprev' Hthis'). cbn [negb snd ret].
    by apply IH. }
  by apply Hgen.
Qed.

Lemma unsupported_device_is_never_recorded_witness :
  _energy_consumption_history
    (poll ticking_clock [[silent_values]; [silent_values; silent_values]] init_world) = ∅.
Proof.
  apply (unsupported_device_is_never_recorded ticking_clock
           [[silent_values]; [silent_values; silent_values]]).
  repeat constructor.
Defined.

Lemma take_prune_idx_nonempty (clk : nat → Z) (k : nat) (s : snapshot)
    (h : list snapshot) :
  take (prune_idx clk k (s :: h)) (s :: h) ≠ [].
Proof. by destruct (prune_idx_pos clk k (s :: h)) as [n ->]. Qed.

Lemma register_mode_frame (clk : nat → Z) (mode : string) (w : World) :
  values (register_mode clk mode w).2 = values w
  ∧ log (register_mode clk mode w).2 = log w
  ∧ (ticks w < ticks (register_mode clk mode w).2)%nat
  ∧ ∀ m, m ≠ mode →
         _energy_consumption_history (register_mode clk mode w).2 !! m
         = _energy_consumption_history w !! m.
Proof.
  rewrite register_mode_run.
  destruct (today_energy_consumption _ _) as [t|e]; [|by simpl; split_and!; try lia].
  destruct (yesterday_energy_consumption _ _) as [y|e]; [|by simpl; split_and!; try lia].
  destruct (state_unchanged _ _); [by simpl; split_and!; try lia|].
  unfold inserted. cbn [snd values log ticks _energy_consumption_history].
  split_and!; [done|done|lia|].
  intros m Hm. by rewrite lookup_insert_ne.
Qed.

Lemma register_mode_keeps_entries (clk : nat → Z) (mode : string) (w : World)
    (m : string) :
  history_of w m ≠ [] → history_of (register_mode clk mode w).2 m ≠ [].
Proof.
  intros Hne. destruct (decide (m = mode)) as [->|Hm].
  - rewrite register_mode_run.
    destruct (today_energy_consumption _ _) as [t|e]; [|done].
    destruct (yesterday_energy_consumption _ _) as [y|e]; [|done].
    destruct (state_unchanged _ _); [done|].
    cbn [snd]. rewrite inserted_history.
    apply take_prune_idx_nonempty.
  - destruct (register_mode_frame clk mode w) as (_ & _ & _ & Hother).
    unfold history_of in *. by rewrite Hother.
Qed.

Lemma register_mode_success (clk : nat → Z) (mode : string) (w w' : World) :
  register_mode clk mode w = (Ok tt, w') → history_of w' mode ≠ [].
Proof.
  rewrite register_mode_run.
  destruct (today_energy_consumption _ _) as [t|e]; [|done].
  destruct (yesterday_energy_consumption _ _) as [y|e]; [|done].
  destruct (state_unchanged _ _) eqn:Hsame.
  - intros [= <-]. apply state_unchanged_spec in Hsame as (s & Hs & _).
    change (history_of (set_ticks (S (ticks w)) w) mode) with (history_of w mode).
    by destruct (history_of w mode).
  - intros [= <-]. rewrite inserted_history.
    apply take_prune_idx_nonempty.
Qed.

Lemma for_modes_frame (clk : nat → Z) (ms : list string) :
  ∀ w : World,
  values (for_modes clk ms w).2 = values w
  ∧ log (for_modes clk ms w).2 = log w
  ∧ (ticks w <= ticks (for_modes clk ms w).2)%nat
  ∧ (∀ m, history_of w m ≠ [] → history_of (for_modes clk ms w).2 m ≠ [])
  ∧ (∀ m, m ∉ ms →
          _energy_consumption_history (for_modes clk ms w).2 !! m
          = _energy_consumption_history w !! m)
  ∧ ((for_modes clk ms w).1 = Ok tt →
     ∀ m, m ∈ ms → history_of (for_modes clk ms w).2 m ≠ []).
Proof.
  induction ms as [|mode ms IH]; intros w.
  { simpl. split_and!; try done. intros _ m Hm. by apply elem_of_nil in Hm. }
  cbn [for_modes]. unfold bind.
  destruct (register_mode_frame clk mode w) as (Hv & Hl & Ht & Hother).
  pose proof (register_mode_keeps_entries clk mode w) as Hkeep.
  pose proof (register_mode_success clk mode w) as Hsucc.
  destruct (register_mode clk mode w) as [[[]|e] w1] eqn:Hrun; cbn [fst snd] in *.
  - destruct (IH w1) as (Hv' & Hl' & Ht' & Hkeep' & Hother' & Hsucc').
    split_and!.
    + by rewrite Hv'.
    + by rewrite Hl'.
    + lia.
    + intros m Hm. by apply Hkeep', Hkeep.
    + intros m Hm. apply not_elem_of_cons in Hm as [Hne Hm].
      rewrite Hother' by done. by apply Hother.
    + intros Hok m Hm. apply elem_of_cons in Hm as [->|Hm].
      * apply Hkeep'. by apply (Hsucc w1).
      * by apply Hsucc'.
  - split_and!; try done; [lia|..].
    intros m Hm. apply not_elem_of_cons in Hm as [Hne Hm]. by apply Hother.
Qed.

(** X4. Whatever its outcome, a record call changes neither the values nor
    the log, never holds the clock back, never empties a history that has an
    entry and touches no key other than the three modes; when it returns
    with the device supporting energy consumption, the three modes hold at
    least one snapshot each. *)
Theorem recorder_frame (clk : nat → Z) (w : World) :
  values (_register_energy_consumption_history clk w).2 = values w
  ∧ log (_register_energy_consumption_history clk w).2 = log w
  ∧ (ticks w <= ticks (_register_energy_consumption_history clk w).2)%nat
  ∧ (∀ m, history_of w m ≠ [] →
          history_of (_register_energy_consumption_history clk w).2 m ≠ [])
  ∧ (∀ m, m ∉ modes →
          _energy_consumption_history (_register_energy_consumption_history clk w).2 !! m
          = _energy_consumption_history w !! m)
  ∧ ((_register_energy_consumption_history clk w).1 = Ok tt →
     support_energy_consumption (values w) = Ok true →
     ∀ m, m ∈ modes →
          history_of (_register_energy_consumption_history clk w).2 m ≠ []).
Proof.
  unfold _register_energy_consumption_history, bind, on_values.
  destruct (support_energy_consumption (values w)) as [[]|e]; cbn [negb].
  - destruct (for_modes_frame clk modes w) as (Hv & Hl & Ht & Hkeep & Hother & Hsucc).
    split_and!; try done. intros Hok _. by apply Hsucc.
  - simpl. split_and!; try done.
  - simpl. split_and!; try done.
Qed.

Lemma recorder_frame_witness :
  history_of
    (_register_energy_consumption_history ticking_clock
       (set_values reporting_values init_world)).2 ATTR_TOTAL ≠ [].
Proof.
  apply (recorder_frame ticking_clock (set_values reporting_values init_world)).
  - vm_compute. reflexivity.
  - vm_compute. reflexivity.
  - unfold modes. constructor.
Defined.

(** X5. When the pass of the recorder for a mode returns, the newest
    snapshot of the mode agrees with the counters the device reports now; it
    is the snapshot just observed unless both counters are unchanged. *)
Theorem register_mode_records_current_counters (clk : nat → Z) (mode : string)
    (w w' : World) :
  register_mode clk mode w = (Ok tt, w') →
  ∃ (s : snapshot) (t y : Q),
    today_energy_consumption (values w) mode = Ok t
    ∧ yesterday_energy_consumption (values w) mode = Ok y
    ∧ head (history_of w' mode) = Some s
    ∧ (today s == t)%Q
    ∧ (yesterday s == y)%Q
    ∧ (state_unchanged (clk (ticks w), t, y) (old_state_of (history_of w mode)) = false →
       s = (clk (ticks w), t, y)).
Proof.
  rewrite register_mode_run.
  destruct (today_energy_consumption _ _) as [t|e]; [|done].
  destruct (yesterday_energy_consumption _ _) as [y|e]; [|done].
  destruct (state_unchanged _ _) eqn:Hsame; intros [= <-].
  - destruct (state_unchanged_spec _ _ Hsame) as (s & Hs & Ht & Hy).
    exists s, t, y. split_and!; [done..|].
    intros Hfalse. congruence.
  - exists (clk (ticks w), t, y), t, y. split_and!; try done.
    apply inserted_head.
Qed.

Lemma register_mode_records_current_counters_witness :
  ∃ (s : snapshot) (t y : Q),
    today_energy_consumption (values aged_world) ATTR_TOTAL = Ok t
    ∧ yesterday_energy_consumption (values aged_world) ATTR_TOTAL = Ok y
    ∧ head (history_of (register_mode ticking_clock ATTR_TOTAL aged_world).2 ATTR_TOTAL)
      = Some s
    ∧ (today s == t)%Q
    ∧ (yesterday s == y)%Q
    ∧ (state_unchanged (ticking_clock (ticks aged_world), t, y)
         (old_state_of (history_of aged_world ATTR_TOTAL)) = false →
       s = (ticking_clock (ticks aged_world), t, y)).
Proof.
  apply (register_mode_records_current_counters ticking_clock ATTR_TOTAL aged_world).
  vm_compute. reflexivity.
Defined.

Lemma merged_snoc (fetched : list (gmap string string)) (r v : gmap string string) :
  merged (fetched ++ [r]) v = r ∪ merged fetched v.
Proof. unfold merged. by rewrite fold_left_app. Qed.

Lemma merged_keeps_keys (fetched : list (gmap string string)) :
  ∀ (v : gmap string string) (k : string),
  is_Some (v !! k) → is_Some (merged fetched v !! k).
Proof.
  induction fetched as [|r fetched IH]; intros v k Hk; [done|].
  cbn [merged fold_left]. apply (IH (r ∪ v)).
  apply lookup_union_is_Some. by right.
Qed.

Lemma merged_lookup_untouched (fetched : list (gmap string string)) :
  ∀ (v : gmap string string) (k : string),
  Forall (λ r : gmap string string, r !! k = None) fetched →
  merged fetched v !! k = v !! k.
Proof.
  induction fetched as [|r fetched IH]; intros v k Hall; [done|].
  apply Forall_cons in Hall as [Hr Hall].
  cbn [merged fold_left]. rewrite (IH (r ∪ v)) by done.
  by rewrite lookup_union_r.
Qed.

(** X6. After [update_status], whatever the recorder did, the values are
    the old ones updated by each answer in turn: no field is ever removed, a
    field no answer mentions keeps its value, and a field of the last answer
    has the value of the last answer. *)
Theorem update_status_values (clk : nat → Z) (fetched : list (gmap string string))
    (w : World) :
  values (update_status clk fetched w).2 = merged fetched (values w)
  ∧ (∀ k, is_Some (values w !! k) →
          is_Some (values (update_status clk fetched w).2 !! k))
  ∧ (∀ k, Forall (λ r : gmap string string, r !! k = None) fetched →
          values (update_status clk fetched w).2 !! k = values w !! k)
  ∧ (∀ k r x, last fetched = Some r → r !! k = Some x →
              values (update_status clk fetched w).2 !! k = Some x).
Proof.
  assert (values (update_status clk fetched w).2 = merged fetched (values w)) as Hv.
  { rewrite update_status_run.
    unfold _register_energy_consumption_history, bind, on_values.
    cbn [values set_values].
    destruct (support_energy_consumption _) as [[]|e]; cbn [negb]; [|done..].
    destruct (for_modes_frame clk modes
                (set_values (merged fetched (values w)) w)) as (Hfm & _).
    exact Hfm. }
  rewrite Hv. split_and!.
  - done.
  - intros k. apply merged_keeps_keys.
  - intros k. apply merged_lookup_untouched.
  - intros k r x Hlast Hr.
    destruct fetched as [|r0 fetched _] using rev_ind; [done|].
    rewrite last_snoc in Hlast. injection Hlast as ->.
    rewrite merged_snoc. by apply lookup_union_Some_l.
Qed.

Lemma update_status_values_witness :
  values (update_status ticking_clock [reporting_values; next_day_values]
            (set_values silent_values init_world)).2 !! "datas"
  = Some "3000/500"%string.
Proof.
  apply (update_status_values ticking_clock [reporting_values; next_day_values]
           (set_values silent_values init_world)) with (r := next_day_values).
  - reflexivity.
  - vm_compute. reflexivity.
Defined.

(** ** Further properties: the integrator *)

(** X7. With fewer than two snapshots for the mode there is no pair to
    walk: the delta is 0, the clock is not read and nothing is logged. *)
Theorem delta_energy_consumption_short_history (clk : nat → Z) (dt : Z)
    (mode : string) (early_break : bool) (w : World) :
  (length (history_of w mode) <= 1)%nat →
  delta_energy_consumption clk dt mode early_break w
  = (Ok 0%Q, set_history (touched mode (_energy_consumption_history w)) w).
Proof.
  intros Hlen. unfold delta_energy_consumption, bind. rewrite history_getitem_run.
  destruct (history_of w mode) as [|s [|s' h]]; [done|done|simpl in Hlen; lia].
Qed.

Lemma delta_energy_consumption_short_history_witness :
  delta_energy_consumption ticking_clock (timedelta_minutes 30) ATTR_TOTAL false
    (with_history {[ATTR_TOTAL := [(noon, 50%Q, 40%Q)]]})
  = (Ok 0%Q, with_history {[ATTR_TOTAL := [(noon, 50%Q, 40%Q)]]}).
Proof.
  rewrite (delta_energy_consumption_short_history ticking_clock (timedelta_minutes 30)
             ATTR_TOTAL false (with_history {[ATTR_TOTAL := [(noon, 50%Q, 40%Q)]]})).
  - vm_compute. reflexivity.
  - vm_compute. lia.
Defined.

(** X8. When the newest snapshot is at or before [now - dt], the walk stops
    at once: the delta is 0 after one reading of the clock and nothing is
    logged, even if the history holds an anomaly. *)
Theorem delta_energy_consumption_outside_window (clk : nat → Z) (dt : Z)
    (mode : string) (early_break : bool) (w : World)
    (newest second : snapshot) (rest : list snapshot) :
  history_of w mode = newest :: second :: rest →
  timestamp newest <= clk (ticks w) - dt →
  delta_energy_consumption clk dt mode early_break w
  = (Ok 0%Q,
     set_ticks (S (ticks w))
       (set_history (touched mode (_energy_consumption_history w)) w)).
Proof.
  intros Hh Hout. unfold delta_energy_consumption, bind.
  rewrite history_getitem_run, Hh.
  destruct newest as [[dt2 st2] sy2], second as [[dt1 st1] sy1].
  cbn [consecutive tail zip zip_with delta_loop]. unfold bind, utcnow.
  cbn [ticks set_history]. unfold timestamp in Hout. cbn [fst] in Hout.
  apply Z.leb_le in Hout. by rewrite Hout.
Qed.

Lemma delta_energy_consumption_outside_window_witness :
  (delta_energy_consumption (steady_clock (noon + timedelta_hours 1))
     (timedelta_minutes 30) ATTR_TOTAL false
     (with_history {[ATTR_TOTAL := anomaly_history]})).1 = Ok 0%Q
  ∧ log (delta_energy_consumption (steady_clock (noon + timedelta_hours 1))
           (timedelta_minutes 30) ATTR_TOTAL false
           (with_history {[ATTR_TOTAL := anomaly_history]})).2 = [].
Proof.
  rewrite (delta_energy_consumption_outside_window (steady_clock (noon + timedelta_hours 1))
             (timedelta_minutes 30) ATTR_TOTAL false
             (with_history {[ATTR_TOTAL := anomaly_history]})
             (noon, 30%Q, 10%Q) (noon - timedelta_minutes 10, 50%Q, 40%Q) []).
  - done.
  - vm_compute. reflexivity.
  - vm_compute. discriminate.
Defined.

Lemma consecutive_cons (a b : snapshot) (h : list snapshot) :
  consecutive (a :: b :: h) = (a, b) :: consecutive (b :: h).
Proof. reflexivity. Qed.

Lemma consecutive_newer_elem (h : list snapshot) (p : snapshot * snapshot) :
  p ∈ consecutive h → p.1 ∈ h.
Proof.
  destruct h as [|a h]; [by intros ?%elem_of_nil|].
  revert a. induction h as [|b h IH]; intros a; [by intros ?%elem_of_nil|].
  rewrite consecutive_cons. intros [->|Hp]%elem_of_cons; [by left|].
  right. by apply IH.
Qed.

Lemma in_window_sublist (clk : nat → Z) (dt : Z) (ps : list (snapshot * snapshot)) :
  ∀ (k : nat) (p : snapshot * snapshot), p ∈ in_window clk k dt ps → p ∈ ps.
Proof.
  induction ps as [|q ps IH]; intros k p; simpl; [done|].
  destruct (timestamp q.1 <=? clk k - dt); [by intros ?%elem_of_nil|].
  intros [->|Hp]%elem_of_cons; [by left|]. right. by eapply IH.
Qed.

Lemma processed_sublist (early_break : bool) (ps : list (snapshot * snapshot))
    (p : snapshot * snapshot) :
  p ∈ processed early_break ps → p ∈ ps.
Proof.
  destruct early_break; simpl; [|done].
  destruct ps as [|q ps]; [done|]. cbn [take].
  intros [->|Hp]%elem_of_cons; [by left|].
  rewrite take_0 in Hp. by apply elem_of_nil in Hp.
Qed.

Lemma total_contribution_nonneg (ps : list (snapshot * snapshot)) (s : Q) :
  (∀ p, p ∈ ps → (0 <= today p.1)%Q) →
  total_contribution ps = Some s → (0 <= s)%Q.
Proof.
  revert s. induction ps as [|[newer older] ps IH]; intros s Hpos; simpl.
  { intros [= <-]. apply Qle_refl. }
  destruct (contribution newer older) as [c|] eqn:Hc; [|done].
  destruct (total_contribution ps) as [s'|]; [|done].
  intros [= <-].
  assert (0 <= s')%Q as Hs' by (apply IH; [|done]; intros p Hp; apply Hpos; by right).
  assert (0 <= c)%Q as Hc'.
  { pose proof (Hpos (newer, older) ltac:(by left)) as Hnewer. simpl in Hnewer.
    unfold contribution in Hc.
    destruct (Qlt_le_dec (today older) (today newer)) as [Hlt|_].
    - injection Hc as <-. apply Qlt_le_weak in Hlt.
      apply (Qplus_le_l _ _ (today older)). ring_simplify. done.
    - destruct (Qlt_le_dec (yesterday newer) (today older)) as [|Hle]; [done|].
      injection Hc as <-.
      assert (0 <= yesterday newer - today older)%Q as Hroll.
      { apply (Qplus_le_l _ _ (today older)). ring_simplify. done. }
      pose proof (Qplus_le_compat _ _ _ _ Hroll Hnewer) as Hsum.
      by rewrite Qplus_0_l in Hsum. }
  pose proof (Qplus_le_compat _ _ _ _ Hc' Hs') as Hsum.
  by rewrite Qplus_0_l in Hsum.
Qed.

(** X10. When no snapshot of the mode has a negative today counter, the
    delta is never negative. *)
Theorem delta_energy_consumption_nonnegative (clk : nat → Z) (dt : Z) (mode : string)
    (early_break : bool) (w : World) :
  (∀ s, s ∈ history_of w mode → (0 <= today s)%Q) →
  ∃ (e : Q) (w' : World),
    delta_energy_consumption clk dt mode early_break w = (Ok e, w')
    ∧ (0 <= e)%Q.
Proof.
  intros Hpos.
  destruct (delta_energy_consumption_spec clk dt mode early_break w)
    as (e & w' & Hrun & _ & _ & Hres).
  exists e, w'. split; [done|].
  destruct (total_contribution _) as [s|] eqn:Hs.
  - destruct Hres as [He _]. rewrite He.
    eapply total_contribution_nonneg; [|exact Hs].
    intros p Hp. apply Hpos.
    apply consecutive_newer_elem.
    eapply in_window_sublist, processed_sublist. exact Hp.
  - destruct Hres as [-> _]. apply Qle_refl.
Qed.

Lemma delta_energy_consumption_nonnegative_witness :
  ∃ (e : Q) (w' : World),
    delta_energy_consumption (steady_clock noon) (timedelta_minutes 65) ATTR_COOL true
      (with_history {[ATTR_COOL := late_anomaly_history]}) = (Ok e, w')
    ∧ (0 <= e)%Q.
Proof.
  apply (delta_energy_consumption_nonnegative (steady_clock noon) (timedelta_minutes 65)
           ATTR_COOL true (with_history {[ATTR_COOL := late_anomaly_history]})).
  intros s Hs. vm_compute in Hs.
  repeat (apply elem_of_cons in Hs as [->|Hs]; [vm_compute; discriminate|]).
  by apply elem_of_nil in Hs.
Defined.

(** ** Further properties: responses *)

Lemma dict_of_fields_malformed (fields : list (list string)) (f : list string) :
  ∀ acc, f ∈ fields → length f ≠ 2%nat → dict_of_fields fields acc = None.
Proof.
  intros acc Hf Hlen. revert acc.
  induction Hf as [f fields|f g fields _ IH]; intros acc.
  - simpl. destruct f as [|k [|v [|x f]]]; simpl in *; done.
  - simpl. destruct g as [|k [|v [|x g]]]; try done. by apply IH.
Qed.

(** X11. A response with a field that holds no equals sign, the empty
    response among them, makes [parse_response] raise [ValueError]. *)
Theorem parse_response_malformed_field (unquote : string → string)
    (response_body field : string) :
  field ∈ split_char "," response_body →
  has_char "=" field = false →
  parse_response unquote response_body = Raise ValueError.
Proof.
  intros Hfield Heq. unfold parse_response.
  rewrite (dict_of_fields_malformed _ (split_char "=" field)); [done| |].
  - apply list_elem_of_fmap. by exists field.
  - by rewrite split_char_no_sep.
Qed.

Lemma parse_response_malformed_field_witness :
  parse_response id EmptyString = Raise ValueError
  ∧ parse_response id "ret=OK,pow" = Raise ValueError.
Proof.
  split.
  - apply (parse_response_malformed_field id EmptyString EmptyString).
    + vm_compute. by left.
    + reflexivity.
  - apply (parse_response_malformed_field id "ret=OK,pow" "pow").
    + vm_compute. right. by left.
    + reflexivity.
Defined.

Lemma has_char_app (c : ascii) (a b : string) :
  has_char c (a +:+ b) = has_char c a || has_char c b.
Proof. induction a as [|x a IH]; simpl; [done|]. by rewrite IH, orb_assoc. Qed.

Lemma split_fields_of_text (kvs : list (string * string)) :
  kvs ≠ [] →
  Forall well_formed kvs →
  map (split_char "=") (split_char "," (response_text kvs))
  = map (λ kv, [kv.1; kv.2]) kvs.
Proof.
  intros Hne Hwf. unfold response_text.
  rewrite split_char_join.
  - rewrite map_map. apply map_ext_in. intros [k v] Hkv%list_elem_of_In.
    rewrite Forall_forall in Hwf. destruct (Hwf _ Hkv) as (_ & Hk & _ & Hv).
    simpl in *.
    change (k +:+ "=" +:+ v) with (k +:+ String "=" v).
    rewrite split_char_app by done. by rewrite split_char_no_sep.
  - by destruct kvs.
  - apply Forall_map. eapply Forall_impl; [exact Hwf|].
    intros [k v] (Hk & _ & Hv & _). simpl in *.
    by rewrite !has_char_app, Hk, Hv.
Qed.

Lemma dict_of_fields_pairs (kvs : list (string * string)) :
  ∀ acc,
  dict_of_fields (map (λ kv, [kv.1; kv.2]) kvs) acc
  = Some (fold_left (λ m kv, <[kv.1 := kv.2]> m) kvs acc).
Proof. induction kvs as [|[k v] kvs IH]; intros acc; [done|]. simpl. apply IH. Qed.

(** X12. [parse_response] reads back a response made of well-formed fields
    joined by commas: it raises [ValueError] when no field is [ret], returns
    the empty dictionary when [ret] is not [OK], and otherwise returns the
    dictionary of the fields, a later field replacing an earlier one with the
    same key (the field [name], if any, being unquoted). *)
Theorem parse_response_reads_fields (unquote : string → string)
    (kvs : list (string * string)) :
  kvs ≠ [] →
  Forall well_formed kvs →
  (dict_of_pairs kvs !! "ret" = None →
   parse_response unquote (response_text kvs) = Raise ValueError)
  ∧ (∀ r, dict_of_pairs kvs !! "ret" = Some r → r ≠ "OK"%string →
          parse_response unquote (response_text kvs) = Ok ∅)
  ∧ (dict_of_pairs kvs !! "ret" = Some "OK"%string →
     dict_of_pairs kvs !! "name" = None →
     parse_response unquote (response_text kvs) = Ok (dict_of_pairs kvs))
  ∧ (∀ n, dict_of_pairs kvs !! "ret" = Some "OK"%string →
          dict_of_pairs kvs !! "name" = Some n →
          parse_response unquote (response_text kvs)
          = Ok (<["name" := unquote n]> (dict_of_pairs kvs))).
Proof.
  intros Hne Hwf. unfold parse_response.
  rewrite split_fields_of_text, dict_of_fields_pairs by done.
  fold (dict_of_pairs kvs). split_and!.
  - by intros ->.
  - intros r -> Hr. apply String.eqb_neq in Hr. by rewrite Hr.
  - by intros -> ->.
  - by intros n -> ->.
Qed.

Lemma parse_response_reads_fields_witness :
  parse_response id (response_text sensor_pairs) = Ok (dict_of_pairs sensor_pairs).
Proof.
  apply (parse_response_reads_fields id sensor_pairs).
  - discriminate.
  - repeat constructor.
  - vm_compute. reflexivity.
  - vm_compute. reflexivity.
Defined.

(** ** Further properties: the MAC address *)

Lemma pairs_of_chars_ind (P : string → Prop) :
  P EmptyString →
  (∀ a, P (String a EmptyString)) →
  (∀ a b s, P s → P (String a (String b s))) →
  ∀ s, P s.
Proof.
  intros H0 H1 H2.
  assert (∀ s, P s ∧ ∀ a, P (String a s)) as Hboth.
  { induction s as [|b s [IHs IHa]]; [by split|].
    split; [apply IHa|]. intros a. by apply H2. }
  intros s. apply Hboth.
Qed.

Lemma pairs_of_chars_nil (s : string) : pairs_of_chars s = [] → s = EmptyString.
Proof. by destruct s as [|a [|b s]]. Qed.

Lemma translate_mac_step (a b : ascii) (s : string) :
  s ≠ EmptyString →
  translate_mac (String a (String b s))
  = String a (String b (String ":" (translate_mac s))).
Proof.
  intros Hs. unfold translate_mac. cbn [pairs_of_chars].
  rewrite join_cons; [done|]. intros Hnil. by apply pairs_of_chars_nil in Hnil.
Qed.

(** X13. [translate_mac] only inserts colons: taking them out of its value
    gives back a string that had none, and a string of [n] characters becomes
    one of [n + (n - 1) / 2]; a MAC address of 12 digits becomes 17
    characters. *)
Theorem translate_mac_inserts_colons (value : string) :
  String.length (translate_mac value)
  = (String.length value + (String.length value - 1) / 2)%nat
  ∧ (has_char ":" value = false → without_colons (translate_mac value) = value)
  ∧ (String.length value = 12%nat → String.length (translate_mac value) = 17%nat).
Proof.
  assert (String.length (translate_mac value)
          = (String.length value + (String.length value - 1) / 2)%nat) as Hlen.
  { induction value as [|a|a b s IH] using pairs_of_chars_ind; [done|done|].
    destruct s as [|c s]; [done|].
    rewrite translate_mac_step by done. cbn [String.length]. rewrite IH.
    cbn [String.length].
    replace (S (S (S (String.length s))) - 1)%nat with (String.length s + 1 * 2)%nat by lia.
    rewrite Nat.div_add by done.
    replace (S (String.length s) - 1)%nat with (String.length s) by lia. lia. }
  split_and!.
  - done.
  - clear Hlen.
    induction value as [|a|a b s IH] using pairs_of_chars_ind; [done|..].
    + simpl. by destruct (Ascii.eqb a ":").
    + cbn [has_char]. intros Hno.
      destruct (Ascii.eqb a ":") eqn:Ha; [done|].
      destruct (Ascii.eqb b ":") eqn:Hb; [done|]. simpl in Hno.
      destruct s as [|c s].
      * simpl. by rewrite Ha, Hb.
      * rewrite translate_mac_step by done. cbn [without_colons].
        rewrite Ha, Hb. change (Ascii.eqb ":" ":") with true. cbv iota.
        by rewrite IH.
  - intros H12. rewrite Hlen, H12. reflexivity.
Qed.

Lemma translate_mac_inserts_colons_witness :
  without_colons (translate_mac "0123456789AB") = "0123456789AB"%string
  ∧ String.length (translate_mac "0123456789AB") = 17%nat.
Proof.
  split.
  - apply (translate_mac_inserts_colons "0123456789AB"). reflexivity.
  - apply (translate_mac_inserts_colons "0123456789AB"). reflexivity.
Defined.

(** ** Further properties: translations *)

Lemma items_get_elem (items : list (string * string)) (k v : string) :
  NoDup (map fst items) → (k, v) ∈ items → items_get items k = Some v.
Proof.
  induction items as [|[k0 v0] items IH]; intros Hnodup Hin; [by apply elem_of_nil in Hin|].
  apply NoDup_cons in Hnodup as [Hfresh Hnodup]. simpl.
  apply elem_of_cons in Hin as [[= -> ->]|Hin].
  - by rewrite String.eqb_refl.
  - destruct (String.eqb k0 k) eqn:Heq; [|by apply IH].
    apply String.eqb_eq in Heq as ->. exfalso. apply Hfresh.
    apply list_elem_of_fmap. by exists (k, v).
Qed.

Lemma reversed_untouched (items : list (string * string)) (v : string) :
  ∀ acc : gmap string string,
  v ∉ map snd items →
  fold_left (λ m kv, <[kv.2 := kv.1]> m) items acc !! v = acc !! v.
Proof.
  induction items as [|[k0 v0] items IH]; intros acc Hv; [done|].
  simpl in *. apply not_elem_of_cons in Hv as [Hne Hv].
  rewrite IH by done. by rewrite lookup_insert_ne.
Qed.

Lemma reversed_lookup (items : list (string * string)) (v : string) :
  ∀ acc : gmap string string,
  v ∈ map snd items →
  ∃ k, fold_left (λ m kv, <[kv.2 := kv.1]> m) items acc !! v = Some k
       ∧ (k, v) ∈ items.
Proof.
  induction items as [|[k0 v0] items IH]; intros acc Hv; [by apply elem_of_nil in Hv|].
  simpl in *. destruct (decide (v ∈ map snd items)) as [Hlater|Hlast].
  - destruct (IH (<[v0 := k0]> acc) Hlater) as (k & Hk & Hin).
    exists k. split; [done|by right].
  - apply elem_of_cons in Hv as [->|Hv]; [|done].
    exists k0. rewrite reversed_untouched by done.
    rewrite lookup_insert_eq. split; [done|by left].
Qed.

(** X14. For an entry [(k, v)] of the table of a dimension, whose keys are
    distinct, [daikin_to_human] maps [k] to [v] and undoes
    [human_to_daikin] on [v]; when the names of the table are distinct too,
    [human_to_daikin] maps [v] back to [k].  For a dimension without a table
    both functions return the value unchanged. *)
Theorem translations_round_trip (TRANSLATIONS : gmap string (list (string * string)))
    (dimension k v : string) (items : list (string * string)) :
  TRANSLATIONS !! dimension = Some items →
  NoDup (map fst items) →
  (k, v) ∈ items →
  daikin_to_human TRANSLATIONS dimension k = v
  ∧ daikin_to_human TRANSLATIONS dimension (human_to_daikin TRANSLATIONS dimension v) = v
  ∧ (NoDup (map snd items) →
     human_to_daikin TRANSLATIONS dimension v = k
     ∧ human_to_daikin TRANSLATIONS dimension (daikin_to_human TRANSLATIONS dimension k) = k)
  ∧ (∀ other x, TRANSLATIONS !! other = None →
                daikin_to_human TRANSLATIONS other x = x
                ∧ human_to_daikin TRANSLATIONS other x = x).
Proof.
  intros Hdim Hkeys Hin.
  assert (daikin_to_human TRANSLATIONS dimension k = v) as Hto.
  { unfold daikin_to_human. by rewrite Hdim, (items_get_elem items k v). }
  assert (v ∈ map snd items) as Hv by (apply list_elem_of_fmap; by exists (k, v)).
  destruct (reversed_lookup items v ∅ Hv) as (k' & Hk' & Hin').
  assert (human_to_daikin TRANSLATIONS dimension v = k') as Hfrom.
  { unfold human_to_daikin, reversed. by rewrite Hdim, Hk'. }
  split_and!.
  - done.
  - rewrite Hfrom. unfold daikin_to_human.
    by rewrite Hdim, (items_get_elem items k' v).
  - intros Hnames.
    assert (k' = k) as ->.
    { clear -Hin Hin' Hnames.
      induction items as [|[k0 v0] items IH]; [by apply elem_of_nil in Hin|].
      simpl in Hnames. apply NoDup_cons in Hnames as [Hfresh Hnames].
      apply elem_of_cons in Hin as [[= -> ->]|Hin];
        apply elem_of_cons in Hin' as [[= ->]|Hin']; try done.
      - exfalso. apply Hfresh. apply list_elem_of_fmap. by exists (k', v0).
      - subst. exfalso. apply Hfresh. apply list_elem_of_fmap. by exists (k, v0).
      - by apply IH. }
    by rewrite Hto.
  - intros other x Hother. unfold daikin_to_human, human_to_daikin. by rewrite Hother.
Qed.

Lemma translations_round_trip_witness :
  daikin_to_human mode_translations "mode" "3" = "cool"%string
  ∧ human_to_daikin mode_translations "mode" "cool" = "3"%string.
Proof.
  destruct (translations_round_trip mode_translations "mode" "3" "cool"
              [("2", "dry"); ("3", "cool"); ("4", "hot"); ("6", "fan")]%string)
    as (Hto & _ & Hfrom & _).
  - vm_compute. reflexivity.
  - apply (bool_decide_unpack _). vm_compute. exact I.
  - right. by left.
  - split; [exact Hto|]. apply Hfrom.
    apply (bool_decide_unpack _). vm_compute. exact I.
Defined.

(** ** Further properties: temperatures *)

(** X15. [support_outside_temperature] never answers [False]: it is [True]
    whenever the values hold [otemp], even when that field is no number (as
    the [-] of a unit without an outdoor sensor), and it raises [TypeError]
    when the field is missing. *)
Theorem support_outside_temperature_never_false (F : Type)
    (py_float : string → option F) (values : gmap string string) :
  support_outside_temperature F py_float values ≠ Ok false
  ∧ (is_Some (values !! "otemp") →
     support_outside_temperature F py_float values = Ok true)
  ∧ (values !! "otemp" = None →
     support_outside_temperature F py_float values = Raise TypeError
     ∧ outside_temperature F py_float values = Raise TypeError)
  ∧ (∀ raw, values !! "otemp" = Some raw → py_float raw = None →
            outside_temperature F py_float values = Ok PyFalse).
Proof.
  unfold support_outside_temperature, outside_temperature, _temperature.
  destruct (values !! "otemp") as [raw|] eqn:Hraw.
  - destruct (py_float raw) as [f|] eqn:Hf; simpl.
    + split_and!; [done|done|done|]. intros raw' [= <-]. congruence.
    + split_and!; [done|done|done|]. done.
  - simpl. split_and!; [done| |done|done]. by intros [x Hx].
Qed.

Lemma support_outside_temperature_never_false_witness :
  support_outside_temperature Z (λ _, None) (dict_of_pairs sensor_pairs) = Ok true.
Proof.
  apply (support_outside_temperature_never_false Z (λ _, None) (dict_of_pairs sensor_pairs)).
  vm_compute. by eexists.
Defined.

(** ** Further properties: fetching a resource *)

(** X16. [_get_resource] tries again after a disconnection: when the device
    disconnects [k <= retries] times and then answers, the outcome is that of
    the answer, after [k + 1] attempts. *)
Theorem _get_resource_retries_until_answer (unquote : string → string)
    (net : nat → attempt) (retries : nat) :
  ∀ (k n : nat) (status : Z) (body : string),
  (k <= retries)%nat →
  (∀ i, (i < k)%nat → net (n + i)%nat = Disconnects) →
  net (n + k)%nat = Answers status body →
  _get_resource unquote net retries n
  = (_run_get_resource unquote status body, (n + k + 1)%nat).
Proof.
  induction retries as [|retries IH]; intros k n status body Hk Hdis Hans.
  - assert (k = 0%nat) as -> by lia. rewrite Nat.add_0_r in Hans.
    simpl. rewrite Hans. f_equal. lia.
  - destruct k as [|k].
    + rewrite Nat.add_0_r in Hans. simpl. rewrite Hans. f_equal. lia.
    + pose proof (Hdis 0%nat ltac:(lia)) as H0. rewrite Nat.add_0_r in H0.
      simpl. rewrite H0.
      rewrite (IH k (S n) status body); [f_equal; lia|lia| |].
      * intros i Hi. specialize (Hdis (S i) ltac:(lia)).
        by replace (n + S i)%nat with (S n + i)%nat in Hdis by lia.
      * by replace (n + S k)%nat with (S n + k)%nat in Hans by lia.
Qed.

Lemma _get_resource_retries_until_answer_witness :
  _get_resource id flaky_net 3 0
  = (Done (dict_of_pairs [("ret", "OK"); ("pow", "1")]%string), 3%nat).
Proof.
  rewrite (_get_resource_retries_until_answer id flaky_net 3 2 0 200 "ret=OK,pow=1").
  - vm_compute. reflexivity.
  - lia.
  - intros i Hi. destruct i as [|[|i]]; [done|done|lia].
  - reflexivity.
Defined.

(** X17. [_get_resource] gives up after [retries + 1] attempts: when the
    device disconnects at every one of them, [ServerDisconnectedError] is
    raised; and it never makes more than [retries + 1] attempts. *)
Theorem _get_resource_gives_up (unquote : string → string) (net : nat → attempt)
    (retries : nat) :
  ∀ n : nat,
  ((∀ i, (i <= retries)%nat → net (n + i)%nat = Disconnects) →
   _get_resource unquote net retries n
   = (Failed ServerDisconnectedError, (n + retries + 1)%nat))
  ∧ (n < (_get_resource unquote net retries n).2 <= n + retries + 1)%nat.
Proof.
  induction retries as [|retries IH]; intros n.
  - split.
    + intros Hdis. specialize (Hdis 0%nat ltac:(lia)). rewrite Nat.add_0_r in Hdis.
      simpl. rewrite Hdis. f_equal. lia.
    + simpl. destruct (net n); simpl; lia.
  - destruct (IH (S n)) as [IHfail IHbound]. split.
    + intros Hdis. pose proof (Hdis 0%nat ltac:(lia)) as H0.
      rewrite Nat.add_0_r in H0. simpl. rewrite H0.
      rewrite IHfail; [f_equal; lia|].
      intros i Hi. specialize (Hdis (S i) ltac:(lia)).
      by replace (n + S i)%nat with (S n + i)%nat in Hdis by lia.
    + simpl. destruct (net n); simpl; lia.
Qed.

Lemma _get_resource_gives_up_witness :
  _get_resource id (λ _, Disconnects) 3 0 = (Failed ServerDisconnectedError, 4%nat).
Proof.
  apply (_get_resource_gives_up id (λ _, Disconnects) 3 0).
  intros i _. reflexivity.
Defined.

(** ** Further properties: the address of the device *)

(** X18. Whatever the address [discover_ip] finds by discovery or by DNS,
    the value it returns, and so the attribute [_device_ip] of a new
    appliance, is the identifier it was given; it fails exactly when no
    address is found. *)
Theorem discover_ip_returns_device_id (inet_aton : string → bool)
    (get_name : string → option (gmap string string))
    (gethostbyname : string → option string) (device_id : string) :
  (∀ r, discover_ip inet_aton get_name gethostbyname device_id = Done r → r = device_id)
  ∧ (∀ session r,
       init_device_ip inet_aton get_name gethostbyname device_id session = Done r →
       r = device_id)
  ∧ (∀ e, discover_ip inet_aton get_name gethostbyname device_id = Failed e ↔
          device_ip_of inet_aton get_name gethostbyname device_id = Failed e)
  ∧ (inet_aton device_id = false → get_name device_id = None →
     gethostbyname device_id = None →
     discover_ip inet_aton get_name gethostbyname device_id = Failed (Builtin ValueError)).
Proof.
  assert (∀ r, discover_ip inet_aton get_name gethostbyname device_id = Done r →
               r = device_id) as Hret.
  { intros r. unfold discover_ip. destruct (device_ip_of _ _ _ _); congruence. }
  split_and!.
  - exact Hret.
  - intros [] r; simpl; [congruence|apply Hret].
  - intros e. unfold discover_ip. destruct (device_ip_of _ _ _ _); split; congruence.
  - intros Hip Hname Hdns. unfold discover_ip, device_ip_of. by rewrite Hip, Hname, Hdns.
Qed.

Lemma discover_ip_returns_device_id_witness :
  device_ip_of (λ _, false) (λ _, None) (λ _, Some "192.168.1.10"%string) "daikin.local"
  = Done "192.168.1.10"%string
  ∧ discover_ip (λ _, false) (λ _, None) (λ _, Some "192.168.1.10"%string) "daikin.local"
    = Done "daikin.local"%string.
Proof.
  split; [reflexivity|].
  destruct (discover_ip (λ _, false) (λ _, None) (λ _, Some "192.168.1.10"%string)
              "daikin.local") as [r|e] eqn:Hrun.
  - f_equal.
    by apply (discover_ip_returns_device_id (λ _, false) (λ _, None)
                (λ _, Some "192.168.1.10"%string) "daikin.local").
  - vm_compute in Hrun. discriminate.
Defined.

(** ** Further properties: the horizon *)

(** X19. Under a clock that never goes back, after an insertion observed at
    [observedAt] every entry kept for the mode, except the last one, is at or
    after [observedAt - 3h]: at most one entry older than the horizon is
    held, whatever the order of the history was. *)
Theorem register_mode_keeps_recent (clk : nat → Z) (mode : string) (w : World)
    (t y : Q) :
  monotone clk →
  today_energy_consumption (values w) mode = Ok t →
  yesterday_energy_consumption (values w) mode = Ok y →
  state_unchanged (clk (ticks w), t, y) (old_state_of (history_of w mode)) = false →
  ∃ w' : World,
    register_mode clk mode w = (Ok tt, w')
    ∧ ∀ (i : nat) (s : snapshot),
        history_of w' mode !! i = Some s →
        (S i < length (history_of w' mode))%nat →
        clk (ticks w) - POWER_CONSUMPTION_MAX_HISTORY <= timestamp s.
Proof.
  intros Hmono Ht Hy Hnew.
  exists (inserted clk mode (clk (ticks w), t, y) w).
  rewrite register_mode_run, Ht, Hy, Hnew. split; [done|].
  intros i s. rewrite inserted_history, prune_idx_first_stale.
  intros Hs Hi. rewrite length_take in Hi.
  apply lookup_take_Some in Hs as [Hs _].
  apply Nat.min_glb_lt_iff in Hi as [Hbefore%Nat.succ_lt_mono _].
  pose proof (first_stale_fresh_before clk _ (S (ticks w)) i s Hbefore Hs) as Hfresh.
  pose proof (monotone_le clk Hmono (ticks w) (S (ticks w) + i) ltac:(lia)). lia.
Qed.

Lemma register_mode_keeps_recent_witness :
  ∃ w' : World,
    register_mode ticking_clock ATTR_TOTAL aged_world = (Ok tt, w')
    ∧ ∀ (i : nat) (s : snapshot),
        history_of w' ATTR_TOTAL !! i = Some s →
        (S i < length (history_of w' ATTR_TOTAL))%nat →
        ticking_clock (ticks aged_world) - POWER_CONSUMPTION_MAX_HISTORY <= timestamp s.
Proof.
  apply (register_mode_keeps_recent ticking_clock ATTR_TOTAL aged_world 3%Q 1%Q).
  - intros n. unfold ticking_clock, microseconds_per_minute. lia.
  - vm_compute. reflexivity.
  - vm_compute. reflexivity.
  - vm_compute. reflexivity.
Defined.
